(** * SeedDream Replicate MCP servers: request normalization and the
      [generate_image] tool handler

    Two programs are embedded here:
    - the SeedDream 3.0 server (TypeScript source), module [V3];
    - the SeedDream 4.0 server (compiled [build/index.js]), module [V4].

    Both are a single [CallToolRequestSchema] handler.  The handler is
    embedded in two layers that follow the text of the source:
    - [normalize]: the pure prefix of the handler body, from the prompt
      check down to the last assignment into [input] (validation by
      [throw], then payload construction);
    - [handler]: the whole body, written in a small free monad [prog]
      whose operations are the calls that leave the process
      ([replicate.run] raced against the timer, the download of one
      image, the clock, [Math.random], [process.cwd]).

    Calls to [log] write to stderr and return nothing; they are left
    out, except that a message which converts a value it has not
    checked is kept as that conversion, which can throw.  The long text
    templates of the tool responses are represented by the texts
    interpolated into them, in order, not by their wording. *)

From Stdlib Require Import QArith Qround Ascii Lqa.
From stdpp Require Import gmap strings list option pretty.

Set Warnings "-register-all".
Local Open Scope string_scope.

(** ** JavaScript values *)

(** A JavaScript number: every finite double is a rational, so [Finite]
    over-approximates the finite ones. *)
Inductive number :=
| Finite (q : Q)
| PosInf
| NegInf
| NaN.

(** The values the handler can read: the parsed JSON arguments of the
    request, and [Undefined] for a property that is absent. *)
Inductive value :=
| Undefined
| Null
| Bool (b : bool)
| Num (n : number)
| Str (s : string)
| Arr (xs : list value)
| Obj (fields : gmap string value).

Definition int (z : Z) : value := Num (Finite (inject_Z z)).

(** [a < b] on numbers; any comparison with [NaN] is false. *)
Definition num_lt (a b : number) : bool :=
  match a, b with
  | NaN, _ | _, NaN => false
  | Finite x, Finite y => negb (Qle_bool y x)
  | NegInf, NegInf => false
  | NegInf, _ => true
  | _, NegInf => false
  | PosInf, _ => false
  | Finite _, PosInf => true
  end.

Definition num_gt (a b : number) : bool := num_lt b a.

(** Truthiness ([ToBoolean]). *)
Definition num_truthy (n : number) : bool :=
  match n with
  | Finite q => negb (Qeq_bool q 0)
  | NaN => false
  | PosInf | NegInf => true
  end.

Definition truthy (v : value) : bool :=
  match v with
  | Undefined | Null => false
  | Bool b => b
  | Num n => num_truthy n
  | Str s => negb (String.eqb s "")
  | Arr _ | Obj _ => true
  end.

(** [a || b] *)
Definition or_else (a b : value) : value := if truthy a then a else b.

Definition typeof (v : value) : string :=
  match v with
  | Undefined => "undefined"
  | Null | Arr _ | Obj _ => "object"
  | Bool _ => "boolean"
  | Num _ => "number"
  | Str _ => "string"
  end.

(** [v === s] for a string literal [s] *)
Definition strict_eq_str (v : value) (s : string) : bool :=
  match v with
  | Str s' => String.eqb s' s
  | _ => false
  end.

(** [list.includes(v)] for an array of string literals: only a string
    can be equal to an element. *)
Definition includes (list : list string) (v : value) : bool :=
  match v with
  | Str s => existsb (String.eqb s) list
  | _ => false
  end.

(** [hay.includes(needle)] on strings *)
Fixpoint str_includes (hay needle : string) : bool :=
  String.prefix needle hay ||
  match hay with
  | EmptyString => false
  | String _ rest => str_includes rest needle
  end.

(** [s.startsWith(p)] *)
Definition startsWith (s p : string) : bool := String.prefix p s.

(** [list.join(sep)] *)
Definition join (sep : string) (list : list string) : string :=
  String.concat sep list.

(** ** Exceptions thrown by validation *)

Inductive dimension := Width | Height.

(** One constructor per [throw new Error(...)] of the validation part
    of a handler; [message] (per server) gives the text thrown.
    [TypeError] is the exception the engine raises by itself, with its
    own message, when a comparison is given an object that has no
    primitive value. *)
Inductive error :=
| MissingPrompt
| InvalidAspectRatio
| InvalidSize
| InvalidSequentialMode
| InvalidMaxImages
| TooManyInputImages
| InvalidDimensions (d : dimension)
| TypeError (message : string).

(** Straight-line code that may throw: [inl e] is [throw e]. *)
Definition throws (A : Type) : Type := error + A.

Definition throw_if (c : bool) (e : error) : throws unit :=
  if c then inl e else inr tt.

Definition and_then {E A B} (m : E + A) (k : A -> E + B) : E + B :=
  match m with
  | inl e => inl e
  | inr a => k a
  end.

Notation "m ;;; k" := (and_then m (fun _ => k))
  (at level 100, k at level 200, right associativity).

Notation "x <~ m ;; k" := (and_then m (fun x => k))
  (at level 100, m at next level, k at level 200, right associativity).

(** What the handler takes from the JavaScript engine without looking
    inside: the two conversions that depend on the syntax and rounding of
    floating-point literals, and the wording of its [TypeError]s. *)
Class Host := {
  StringToNumber : string -> number;
  NumberToString : number -> string;
  (** the message of the [TypeError] raised by [x.url()] on plain data *)
  TypeErrorMessage : value -> string;
  (** the message of the [TypeError] raised when [x] is converted to a
      string or a number and has no primitive value *)
  ConversionErrorMessage : value -> string
}.

Section Coercions.
Context `{Host}.

(** [String(v)], as a template literal applies it; [None] is the
    [TypeError] of a value without a primitive value.  An object parsed
    from JSON inherits [toString] from [Object.prototype], unless it
    has a property of that name itself: no JSON value can be called,
    the inherited [valueOf] returns the object, and the conversion
    throws.  An array is joined, which converts each element other than
    [undefined] and [null]. *)
Fixpoint ToString (v : value) : option string :=
  match v with
  | Undefined => Some "undefined"
  | Null => Some "null"
  | Bool b => Some (if b then "true" else "false")
  | Num n => Some (NumberToString n)
  | Str s => Some s
  | Arr xs =>
      join "," <$>
        (fix elements (xs : list value) : option (list string) :=
           match xs with
           | [] => Some []
           | x :: rest =>
               match match x with
                     | Undefined | Null => Some ""
                     | _ => ToString x
                     end with
               | Some s => cons s <$> elements rest
               | None => None
               end
           end) xs
  | Obj fields =>
      match fields !! "toString" with
      | Some _ => None
      | None => Some "[object Object]"
      end
  end.

(** [Number(v)], as a comparison with a number applies it; an array or
    an object goes through its string. *)
Definition ToNumber (v : value) : option number :=
  match v with
  | Undefined => Some NaN
  | Null => Some (Finite 0)
  | Bool b => Some (if b then Finite 1 else Finite 0)
  | Num n => Some n
  | Str s => Some (StringToNumber s)
  | Arr _ | Obj _ => StringToNumber <$> ToString v
  end.

(** [v < c] and [v > c] for a numeric literal [c] *)
Definition lt (v : value) (c : Z) : throws bool :=
  match ToNumber v with
  | Some n => inr (num_lt n (Finite (inject_Z c)))
  | None => inl (TypeError (ConversionErrorMessage v))
  end.
Definition gt (v : value) (c : Z) : throws bool :=
  match ToNumber v with
  | Some n => inr (num_gt n (Finite (inject_Z c)))
  | None => inl (TypeError (ConversionErrorMessage v))
  end.
End Coercions.

(** [a && b] and [a || b] where the right operand, or both, may throw *)
Definition and_b (a : bool) (b : throws bool) : throws bool :=
  if a then b else inr false.
Definition or_b (a b : throws bool) : throws bool :=
  x <~ a ;; if x then inr true else b.

(** [if (c) throw e] *)
Definition throw_when (c : throws bool) (e : error) : throws unit :=
  b <~ c ;; throw_if b e.

(** A sequence of such statements, one per error of [es], where
    [condition e] is the condition under which [e] is thrown: the first
    failure wins. *)
Fixpoint first_failure (es : list error) (condition : error -> throws bool)
    : throws unit :=
  match es with
  | [] => inr tt
  | e :: rest => throw_when (condition e) e ;;; first_failure rest condition
  end.

(** [v.length] *)
Definition get_length (v : value) : value :=
  match v with
  | Str s => int (Z.of_nat (String.length s))
  | Arr xs => int (Z.of_nat (length xs))
  | Obj fields => default Undefined (fields !! "length")
  | _ => Undefined
  end.

(** [params.k] on the arguments object *)
Definition get (params : gmap string value) (k : string) : value :=
  default Undefined (params !! k).

(** A freshly built object literal, in insertion order. *)
Definition object := list (string * value).

Fixpoint has_key (k : string) (o : object) : bool :=
  match o with
  | [] => false
  | (k', _) :: rest => String.eqb k' k || has_key k rest
  end.

Fixpoint prop (k : string) (o : object) : value :=
  match o with
  | [] => Undefined
  | (k', v) :: rest => if String.eqb k' k then v else prop k rest
  end.

(** [o.k = v] *)
Fixpoint set_prop (k : string) (v : value) (o : object) : object :=
  match o with
  | [] => [(k, v)]
  | (k', v') :: rest =>
      if String.eqb k' k then (k', v) :: rest
      else (k', v') :: set_prop k v rest
  end.

(** ** Calls that leave the process *)

(** What a [catch] clause can receive: an [Error] with its message, or
    something that is not an [Error]. *)
Inductive thrown :=
| JsError (message : string)
| NotAnError.

Inductive settled (A : Type) :=
| Fulfilled (a : A)
| Rejected (e : thrown).
Arguments Fulfilled {A} a.
Arguments Rejected {A} e.

(** An element of the array resolved by [replicate.run]: what
    [output[i].url()] does. *)
Inductive item :=
| UrlReturns (v : value)
| UrlThrows (e : thrown).

(** The value resolved by [replicate.run]: plain data, or an array of
    objects carrying a [url] method. *)
Inductive output :=
| Plain (v : value)
| Files (items : list item).

(** [Promise.race([generationPromise, timeoutPromise])] *)
Inductive race :=
| Settled (r : settled output)
| TimerFired.

Inductive prog (A : Type) : Type :=
| Ret (a : A)
| DateNow (k : Z -> prog A)
| DateISOString (k : string -> prog A)
| MathRandom (k : Q -> prog A)
| ProcessCwd (k : string -> prog A)
| ReplicateRun (model : string) (input : object) (k : race -> prog A)
| HttpDownload (url filePath : string) (k : settled unit -> prog A).
Arguments Ret {A} a.
Arguments DateNow {A} k.
Arguments DateISOString {A} k.
Arguments MathRandom {A} k.
Arguments ProcessCwd {A} k.
Arguments ReplicateRun {A} model input k.
Arguments HttpDownload {A} url filePath k.

Fixpoint bind {A B} (p : prog A) (f : A -> prog B) : prog B :=
  match p with
  | Ret a => f a
  | DateNow k => DateNow (fun t => bind (k t) f)
  | DateISOString k => DateISOString (fun t => bind (k t) f)
  | MathRandom k => MathRandom (fun r => bind (k r) f)
  | ProcessCwd k => ProcessCwd (fun d => bind (k d) f)
  | ReplicateRun m i k => ReplicateRun m i (fun r => bind (k r) f)
  | HttpDownload u p k => HttpDownload u p (fun r => bind (k r) f)
  end.

Notation "x <- p ;; k" := (bind p (fun x => k))
  (at level 100, p at next level, k at level 200, right associativity).

(** The calls a run of the handler makes to the outside, in order, each
    with the answer it got. *)
Inductive call :=
| CallRun (model : string) (input : object) (answer : race)
| CallDownload (url filePath : string) (answer : settled unit).

Definition is_run (c : call) : bool :=
  match c with CallRun _ _ _ => true | CallDownload _ _ _ => false end.
Definition is_download (c : call) : bool :=
  match c with CallDownload _ _ _ => true | CallRun _ _ _ => false end.

(** The outside world: each operation answers from a state it may
    change. *)
Record world (St : Type) := World {
  w_now : St -> Z * St;
  w_iso : St -> string * St;
  w_random : St -> Q * St;
  w_cwd : St -> string * St;
  w_run : string -> object -> St -> race * St;
  w_download : string -> string -> St -> settled unit * St
}.
Arguments World {St}.
Arguments w_now {St}.
Arguments w_iso {St}.
Arguments w_random {St}.
Arguments w_cwd {St}.
Arguments w_run {St}.
Arguments w_download {St}.

Record run_result (A St : Type) := Result {
  returned : A;
  calls : list call;
  final : St
}.
Arguments Result {A St}.
Arguments returned {A St}.
Arguments calls {A St}.
Arguments final {A St}.

Definition logged {A St} (c : call) (r : run_result A St) : run_result A St :=
  Result (returned r) (c :: calls r) (final r).

Fixpoint exec {A St} (w : world St) (p : prog A) (s : St) : run_result A St :=
  match p with
  | Ret a => Result a [] s
  | DateNow k => let '(t, s') := w_now w s in exec w (k t) s'
  | DateISOString k => let '(t, s') := w_iso w s in exec w (k t) s'
  | MathRandom k => let '(r, s') := w_random w s in exec w (k r) s'
  | ProcessCwd k => let '(d, s') := w_cwd w s in exec w (k d) s'
  | ReplicateRun m i k =>
      let '(r, s') := w_run w m i s in
      logged (CallRun m i r) (exec w (k r) s')
  | HttpDownload u p k =>
      let '(r, s') := w_download w u p s in
      logged (CallDownload u p r) (exec w (k r) s')
  end.

(** ** Helpers shared by the two servers *)

Definition is_upper (c : ascii) : bool :=
  let n := nat_of_ascii c in (65 <=? n)%nat && (n <=? 90)%nat.
Definition is_lower (c : ascii) : bool :=
  let n := nat_of_ascii c in (97 <=? n)%nat && (n <=? 122)%nat.
Definition is_digit (c : ascii) : bool :=
  let n := nat_of_ascii c in (48 <=? n)%nat && (n <=? 57)%nat.
(** [\s] on ASCII: tab, line feed, vertical tab, form feed, carriage
    return, space *)
Definition is_space (c : ascii) : bool :=
  let n := nat_of_ascii c in ((9 <=? n)%nat && (n <=? 13)%nat) || (n =? 32)%nat.

Definition lower (c : ascii) : ascii :=
  if is_upper c then ascii_of_nat (nat_of_ascii c + 32) else c.

Fixpoint map_chars (f : ascii -> ascii) (s : string) : string :=
  match s with
  | EmptyString => EmptyString
  | String c rest => String (f c) (map_chars f rest)
  end.

Fixpoint filter_chars (f : ascii -> bool) (s : string) : string :=
  match s with
  | EmptyString => EmptyString
  | String c rest =>
      if f c then String c (filter_chars f rest) else filter_chars f rest
  end.

(** [.replace(/\s+/g, '_')]; [in_run] says the previous character was
    white space. *)
Fixpoint collapse_spaces (in_run : bool) (s : string) : string :=
  match s with
  | EmptyString => EmptyString
  | String c rest =>
      if is_space c then
        if in_run then collapse_spaces true rest
        else String "_" (collapse_spaces true rest)
      else String c (collapse_spaces false rest)
  end.

(** The [safePrompt] of [generateImageFilename]; exact on ASCII prompts. *)
Definition safePrompt (prompt : string) : string :=
  let lowered := map_chars lower prompt in
  let kept := filter_chars (fun c => is_lower c || is_digit c || is_space c)
                           lowered in
  String.substring 0 50 (collapse_spaces false kept).

(** [.replace(/[:.]/g, '-')] *)
Definition dash_time (iso : string) : string :=
  map_chars (fun c => if Ascii.eqb c ":" || Ascii.eqb c "." then "-"%char
                      else c) iso.

(** [path.join(a, b)] for a normalised [a] and a plain file name [b] *)
Definition path_join (a b : string) : string := a ++ "/" ++ b.

(** [downloadImage]: the promise settles with the path written, or
    rejects (bad URL, status other than 200, stream or socket error). *)
Definition downloadImage (url filename : string) : prog (settled string) :=
  ProcessCwd (fun cwd =>
    let imagesDir := path_join cwd "images" in
    let filePath := path_join imagesDir filename in
    HttpDownload url filePath (fun r =>
      match r with
      | Fulfilled _ => Ret (Fulfilled filePath)
      | Rejected e => Ret (Rejected e)
      end)).

(** [`${v}`] in a template literal: the text of [v], or the [TypeError]
    of the conversion. *)
Definition interpolate `{Host} (v : value) : thrown + string :=
  match ToString v with
  | Some s => inr s
  | None => inl (JsError (ConversionErrorMessage v))
  end.

(** A value where the code has established [typeof v === 'string']. *)
Definition string_of (v : value) : string :=
  match v with
  | Str s => s
  | _ => EmptyString
  end.

(** The advisory tip appended to an upstream failure. *)
Inductive tip := TipTimeout | TipCredential | TipRateLimit | TipInputValidation.

(** The [errorMessage] shown by the outer [catch]: the message of a
    validation error, or the re-thrown upstream failure
    [`Failed to generate image(s): ${errorMessage}${helpfulMessage}`]
    ([`Failed to generate image: ...`] in the 3.0 server). *)
Inductive error_text :=
| Thrown (message : string)
| FailedToGenerate (errorMessage : string) (helpfulMessage : option tip).

(** [apiError instanceof Error ? apiError.message : 'Unknown API error'] *)
Definition api_message (e : thrown) : string :=
  match e with
  | JsError m => m
  | NotAnError => "Unknown API error"
  end.

(** The client handle set at start-up from [REPLICATE_API_TOKEN]. *)
Record client := Client { auth : string }.

Definition init_replicate (REPLICATE_API_TOKEN : option string) : option client :=
  match REPLICATE_API_TOKEN with
  | None => None
  | Some t => if String.eqb t "" then None else Some (Client t)
  end.

Definition CONFIG_ERROR_TEXT : string :=
  "Error: REPLICATE_API_TOKEN environment variable is not set. Please configure your Replicate API token.".

(** ** The responses of the tool *)

(** One line of [imageDetails]; [n] is [img.index + 1]. *)
Inductive image_line :=
| SavedLine (n : nat) (localPath url : string)
| DownloadFailedLine (n : nat) (url : string).

(** The [{ content: [{ type: "text", text }], isError }] object returned
    by a handler. *)
Record response (R : Type) := Response {
  content : R;
  isError : bool
}.
Arguments Response {R}.
Arguments content {R}.
Arguments isError {R}.

(** The text of a response: the fixed configuration error, the error
    template around an [errorMessage], or the success template around
    the values of a report. *)
Inductive text (R : Type) :=
| ConfigErrorText (s : string)
| ErrorText (errorMessage : error_text)
| SuccessText (r : R).
Arguments ConfigErrorText {R} s.
Arguments ErrorText {R} errorMessage.
Arguments SuccessText {R} r.

(** ** The SeedDream 4.0 server ([build/index.js]) *)

Module V4.

Definition VALID_SIZES : list string := ["1K"; "2K"; "4K"; "custom"].
Definition VALID_ASPECT_RATIOS : list string :=
  ["1:1"; "3:4"; "4:3"; "16:9"; "9:16"; "2:3"; "3:2"; "21:9";
   "match_input_image"].
Definition VALID_SEQUENTIAL_MODES : list string := ["disabled"; "auto"].

Definition message (e : error) : string :=
  match e with
  | MissingPrompt => "Prompt is required and must be a string"
  | InvalidSize =>
      "Invalid size. Must be one of: " ++ join ", " VALID_SIZES
  | InvalidAspectRatio =>
      "Invalid aspect ratio. Must be one of: "
      ++ join ", " VALID_ASPECT_RATIOS
  | InvalidSequentialMode =>
      "Invalid sequential mode. Must be one of: "
      ++ join ", " VALID_SEQUENTIAL_MODES
  | InvalidMaxImages => "max_images must be between 1 and 15"
  | TooManyInputImages => "image_input can contain at most 10 images"
  | InvalidDimensions Width =>
      "width must be between 1024 and 4096 when using custom size"
  | InvalidDimensions Height =>
      "height must be between 1024 and 4096 when using custom size"
  | TypeError message => message
  end.

Record downloaded := Downloaded {
  d_url : string;
  d_localPath : string;
  d_index : nat
}.

(** The values interpolated into the success text: numbers computed
    by the handler as they are, fields of the payload as the text they
    are converted to. *)
Record report := Report {
  r_total : nat;
  r_prompt : string;
  r_size : string;
  r_dimensions : option (string * string);
  r_aspect_ratio : string;
  r_max_images : string;
  r_sequential : string;
  r_input_images : string;
  r_generationTime : Z;
  r_imageDetails : list image_line;
  r_successfulDownloads : nat
}.

Definition helpfulMessage (errorMessage : string) : option tip :=
  if str_includes errorMessage "timeout" then Some TipTimeout
  else if str_includes errorMessage "authentication"
          || str_includes errorMessage "unauthorized" then Some TipCredential
  else if str_includes errorMessage "rate limit" then Some TipRateLimit
  else if str_includes errorMessage "input validation"
       then Some TipInputValidation
  else None.

Definition EMPTY_OUTPUT : string :=
  "No images were generated - empty response from Replicate".

Section Handler.
Context `{Host}.

(** Lines 225-256: the checks, in the order of the source. *)
Definition validate (params : gmap string value) : throws unit :=
  let prompt := get params "prompt" in
  let size := get params "size" in
  let aspect_ratio := get params "aspect_ratio" in
  let sequential := get params "sequential_image_generation" in
  let max_images := get params "max_images" in
  let image_input := get params "image_input" in
  let width := get params "width" in
  let height := get params "height" in
  throw_if (negb (truthy prompt)
            || negb (String.eqb (typeof prompt) "string"))
           MissingPrompt ;;;
  throw_if (truthy size && negb (includes VALID_SIZES size))
           InvalidSize ;;;
  throw_if (truthy aspect_ratio
            && negb (includes VALID_ASPECT_RATIOS aspect_ratio))
           InvalidAspectRatio ;;;
  throw_if (truthy sequential
            && negb (includes VALID_SEQUENTIAL_MODES sequential))
           InvalidSequentialMode ;;;
  throw_when (and_b (truthy max_images)
                    (or_b (lt max_images 1) (gt max_images 15)))
             InvalidMaxImages ;;;
  throw_when (and_b (truthy image_input) (gt (get_length image_input) 10))
             TooManyInputImages ;;;
  if strict_eq_str size "custom" then
    throw_when (and_b (truthy width) (or_b (lt width 1024) (gt width 4096)))
               (InvalidDimensions Width) ;;;
    throw_when (and_b (truthy height)
                      (or_b (lt height 1024) (gt height 4096)))
               (InvalidDimensions Height)
  else inr tt.

(** The errors in the order in which lines 225-256 can throw them. *)
Definition checks : list error :=
  [ MissingPrompt; InvalidSize; InvalidAspectRatio; InvalidSequentialMode;
    InvalidMaxImages; TooManyInputImages;
    InvalidDimensions Width; InvalidDimensions Height ].

(** The condition of the [if] that throws [e], on its own; the two
    dimension checks stand inside [if (params.size === "custom")]. *)
Definition condition (e : error) (params : gmap string value)
    : throws bool :=
  let field := get params in
  match e with
  | MissingPrompt =>
      inr (negb (truthy (field "prompt"))
           || negb (String.eqb (typeof (field "prompt")) "string"))
  | InvalidSize =>
      inr (truthy (field "size")
           && negb (includes VALID_SIZES (field "size")))
  | InvalidAspectRatio =>
      inr (truthy (field "aspect_ratio")
           && negb (includes VALID_ASPECT_RATIOS (field "aspect_ratio")))
  | InvalidSequentialMode =>
      inr (truthy (field "sequential_image_generation")
           && negb (includes VALID_SEQUENTIAL_MODES
                             (field "sequential_image_generation")))
  | InvalidMaxImages =>
      and_b (truthy (field "max_images"))
            (or_b (lt (field "max_images") 1) (gt (field "max_images") 15))
  | TooManyInputImages =>
      and_b (truthy (field "image_input"))
            (gt (get_length (field "image_input")) 10)
  | InvalidDimensions Width =>
      if strict_eq_str (field "size") "custom"
      then and_b (truthy (field "width"))
                 (or_b (lt (field "width") 1024) (gt (field "width") 4096))
      else inr false
  | InvalidDimensions Height =>
      if strict_eq_str (field "size") "custom"
      then and_b (truthy (field "height"))
                 (or_b (lt (field "height") 1024)
                       (gt (field "height") 4096))
      else inr false
  | TypeError _ => inr false
  end.

(** Lines 258-270: the payload. *)
Definition build_input (params : gmap string value) : object :=
  let input :=
    [ ("prompt", get params "prompt");
      ("size", or_else (get params "size") (Str "2K"));
      ("max_images", or_else (get params "max_images") (int 1));
      ("image_input", or_else (get params "image_input") (Arr []));
      ("aspect_ratio",
        or_else (get params "aspect_ratio") (Str "match_input_image"));
      ("sequential_image_generation",
        or_else (get params "sequential_image_generation")
                (Str "disabled")) ] in
  if strict_eq_str (get params "size") "custom" then
    set_prop "height" (or_else (get params "height") (int 2048))
      (set_prop "width" (or_else (get params "width") (int 2048)) input)
  else input.

Definition normalize (params : gmap string value) : throws object :=
  validate params ;;; inr (build_input params).

Definition generateImageFilename
    (prompt : string) (index : nat) (timestamp : string) : prog string :=
  let name timeStr :=
    "seedream4_" ++ safePrompt prompt ++ "_"
    ++ NumberToString (Finite (inject_Z (Z.of_nat index)))
    ++ "_" ++ timeStr ++ ".jpg" in
  if truthy (Str timestamp) then Ret (name timestamp)
  else DateISOString (fun iso => Ret (name (dash_time iso))).

(** [Array.isArray(output)], with the elements as [.url()] sees them *)
Definition as_array (o : output) : option (list item) :=
  match o with
  | Files items => Some items
  | Plain (Arr xs) =>
      Some (List.map (fun x => UrlThrows (JsError (TypeErrorMessage x))) xs)
  | Plain _ => None
  end.

(** Lines 290-306, from index [i] on; [inl] is an exception that
    leaves the loop.  An element passed over is first written into the
    text of a warning, which converts it. *)
Fixpoint download_loop (prompt timestamp : string) (items : list item)
    (i : nat) (downloadedImages : list downloaded)
    : prog (thrown + list downloaded) :=
  match items with
  | [] => Ret (inr downloadedImages)
  | it :: rest =>
      let skip imageUrl :=
        match interpolate imageUrl with
        | inl e => Ret (inl e)
        | inr _ => download_loop prompt timestamp rest (S i) downloadedImages
        end in
      match it with
      | UrlThrows e => Ret (inl e)
      | UrlReturns (Str imageUrl) =>
          if negb (truthy (Str imageUrl))
             || negb (startsWith imageUrl "http")
          then skip (Str imageUrl)
          else
            filename <- generateImageFilename prompt i timestamp ;;
            r <- downloadImage imageUrl filename ;;
            match r with
            | Fulfilled localPath =>
                download_loop prompt timestamp rest (S i)
                  (downloadedImages ++ [Downloaded imageUrl localPath i])
            | Rejected _ =>
                download_loop prompt timestamp rest (S i)
                  (downloadedImages ++ [Downloaded imageUrl "" i])
            end
      | UrlReturns imageUrl => skip imageUrl
      end
  end.

Definition image_detail (img : downloaded) : image_line :=
  if truthy (Str (d_localPath img))
  then SavedLine (d_index img + 1) (d_localPath img) (d_url img)
  else DownloadFailedLine (d_index img + 1) (d_url img).

(** Lines 308-338: the success response; [inl] is the [TypeError] of
    an interpolation, in the order of the template. *)
Definition success (input : object) (total : nat) (generationTime : Z)
    (downloadedImages : list downloaded) : thrown + response (text report) :=
  prompt <~ interpolate (prop "prompt" input) ;;
  size <~ interpolate (prop "size" input) ;;
  dimensions <~
    (if strict_eq_str (prop "size" input) "custom"
     then width <~ interpolate (prop "width" input) ;;
          height <~ interpolate (prop "height" input) ;;
          inr (Some (width, height))
     else inr None) ;;
  aspect_ratio <~ interpolate (prop "aspect_ratio" input) ;;
  max_images <~ interpolate (prop "max_images" input) ;;
  sequential <~ interpolate (prop "sequential_image_generation" input) ;;
  input_images <~ interpolate (get_length (prop "image_input" input)) ;;
  inr (Response
         (SuccessText
            {| r_total := total;
               r_prompt := prompt;
               r_size := size;
               r_dimensions := dimensions;
               r_aspect_ratio := aspect_ratio;
               r_max_images := max_images;
               r_sequential := sequential;
               r_input_images := input_images;
               r_generationTime := generationTime;
               r_imageDetails := List.map image_detail downloadedImages;
               r_successfulDownloads :=
                 length (List.filter
                           (fun img => truthy (Str (d_localPath img)))
                           downloadedImages) |})
         false).

Definition failure (e : error_text) : response (text report) :=
  Response (ErrorText e) true.

(** The inner [catch (apiError)], re-thrown into the outer [catch]. *)
Definition api_catch (apiError : thrown) : response (text report) :=
  let errorMessage := api_message apiError in
  failure (FailedToGenerate errorMessage (helpfulMessage errorMessage)).

(** Lines 273-338: the inner [try] block. *)
Definition generate (params : gmap string value) (input : object)
    : prog (response (text report)) :=
  DateNow (fun startTime =>
  ReplicateRun "bytedance/seedream-4" input (fun raced =>
    match raced with
    | TimerFired => Ret (api_catch (JsError "Request timeout"))
    | Settled (Rejected e) => Ret (api_catch e)
    | Settled (Fulfilled out) =>
        DateNow (fun now =>
          let generationTime := (now - startTime)%Z in
          match as_array out with
          | None | Some [] => Ret (api_catch (JsError EMPTY_OUTPUT))
          | Some items =>
              DateISOString (fun iso =>
                let timestamp := dash_time iso in
                let prompt := string_of (get params "prompt") in
                r <- download_loop prompt timestamp items 0 [] ;;
                match r with
                | inl e => Ret (api_catch e)
                | inr downloadedImages =>
                    match success input (length items) generationTime
                                  downloadedImages with
                    | inl e => Ret (api_catch e)
                    | inr response => Ret response
                    end
                end)
          end)
    end)).

(** The [generate_image] case of the handler, lines 213-384. *)
Definition handler (replicate : option client)
    (arguments : option (gmap string value)) : prog (response (text report)) :=
  match replicate with
  | None => Ret (Response (ConfigErrorText CONFIG_ERROR_TEXT) true)
  | Some _ =>
      let params := default ∅ arguments in
      match normalize params with
      | inl e => Ret (failure (Thrown (message e)))
      | inr input => generate params input
      end
  end.

(** The [switch] on the tool name; [inl] is the exception thrown to
    the protocol layer. *)
Definition call_tool (replicate : option client) (name : string)
    (arguments : option (gmap string value))
    : prog (string + response (text report)) :=
  if String.eqb name "generate_image" then
    r <- handler replicate arguments ;; Ret (inr r)
  else Ret (inl ("Unknown tool: " ++ name)).
End Handler.
End V4.

(** ** The SeedDream 3.0 server (TypeScript source) *)

Module V3.

Definition VALID_ASPECT_RATIOS : list string :=
  ["1:1"; "3:4"; "4:3"; "16:9"; "9:16"; "2:3"; "3:2"; "21:9"; "custom"].
Definition VALID_SIZES : list string := ["small"; "regular"; "big"].

(** The three [throw]s of the validation part; the other kinds are
    never raised by this server. *)
Definition message (e : error) : string :=
  match e with
  | MissingPrompt => "Prompt is required and must be a string"
  | InvalidAspectRatio =>
      "Invalid aspect ratio. Must be one of: "
      ++ join ", " VALID_ASPECT_RATIOS
  | InvalidSize =>
      "Invalid size. Must be one of: " ++ join ", " VALID_SIZES
  | _ => ""
  end.

Inductive sizing :=
| SizeLine (size : string)
| DimensionsLine (width height : string).

Inductive image_outcome :=
| LocalPath (localPath : string)
| DownloadFailedMsg (message : string).

(** The values interpolated into the success text: fields of the
    payload as the text they are converted to. *)
Record report := Report {
  r_prompt : string;
  r_aspect_ratio : string;
  r_sizing : sizing;
  r_guidance_scale : string;
  r_seed : option string;
  r_generationTime : Z;
  r_image : image_outcome;
  r_originalUrl : string
}.

Definition helpfulMessage (errorMessage : string) : option tip :=
  if str_includes errorMessage "timeout" then Some TipTimeout
  else if str_includes errorMessage "authentication"
          || str_includes errorMessage "unauthorized" then Some TipCredential
  else if str_includes errorMessage "rate limit" then Some TipRateLimit
  else None.

Definition EMPTY_OUTPUT : string :=
  "No image was generated - empty response from Replicate".

Section Handler.
Context `{Host}.

(** Lines 267-279: the checks, in the order of the source. *)
Definition validate (params : gmap string value) : throws unit :=
  let prompt := get params "prompt" in
  let aspect_ratio := get params "aspect_ratio" in
  let size := get params "size" in
  throw_if (negb (truthy prompt)
            || negb (String.eqb (typeof prompt) "string"))
           MissingPrompt ;;;
  throw_if (truthy aspect_ratio
            && negb (includes VALID_ASPECT_RATIOS aspect_ratio))
           InvalidAspectRatio ;;;
  throw_if (truthy size && negb (includes VALID_SIZES size))
           InvalidSize.

(** The errors in the order in which lines 267-279 can throw them. *)
Definition checks : list error :=
  [ MissingPrompt; InvalidAspectRatio; InvalidSize ].

(** The condition of the [if] that throws [e], on its own. *)
Definition condition (e : error) (params : gmap string value)
    : throws bool :=
  let field := get params in
  match e with
  | MissingPrompt =>
      inr (negb (truthy (field "prompt"))
           || negb (String.eqb (typeof (field "prompt")) "string"))
  | InvalidAspectRatio =>
      inr (truthy (field "aspect_ratio")
           && negb (includes VALID_ASPECT_RATIOS (field "aspect_ratio")))
  | InvalidSize =>
      inr (truthy (field "size")
           && negb (includes VALID_SIZES (field "size")))
  | _ => inr false
  end.

(** Lines 282-301: the payload. *)
Definition build_input (params : gmap string value) : object :=
  let input :=
    [ ("prompt", get params "prompt");
      ("aspect_ratio", or_else (get params "aspect_ratio") (Str "16:9"));
      ("guidance_scale",
        or_else (get params "guidance_scale") (Num (Finite (5 # 2)))) ] in
  let input :=
    if negb (strict_eq_str (get params "aspect_ratio") "custom")
    then set_prop "size" (or_else (get params "size") (Str "regular")) input
    else input in
  let input :=
    if strict_eq_str (get params "aspect_ratio") "custom"
    then set_prop "height" (or_else (get params "height") (int 2048))
           (set_prop "width" (or_else (get params "width") (int 2048))
                     input)
    else input in
  match get params "seed" with
  | Undefined => input
  | seed => set_prop "seed" seed input
  end.

Definition normalize (params : gmap string value) : throws object :=
  validate params ;;; inr (build_input params).

(** Lines 158-168; [inl] is the [TypeError] of [`${seed}`]. *)
Definition generateImageFilename
    (prompt : string) (index : nat) (seed : value)
    : prog (thrown + string) :=
  DateISOString (fun iso =>
    let timestamp := dash_time iso in
    Ret (seed <~ interpolate seed ;;
         inr ("seedream_" ++ safePrompt prompt ++ "_" ++ seed ++ "_"
              ++ NumberToString (Finite (inject_Z (Z.of_nat index)))
              ++ "_" ++ timestamp ++ ".png"))).

Definition output_truthy (o : output) : bool :=
  match o with
  | Plain v => truthy v
  | Files _ => true
  end.

Definition output_typeof (o : output) : string :=
  match o with
  | Plain v => typeof v
  | Files _ => "object"
  end.

Definition failure (e : error_text) : response (text report) :=
  Response (ErrorText e) true.

(** The inner [catch (apiError)], re-thrown into the outer [catch]. *)
Definition api_catch (apiError : thrown) : response (text report) :=
  let errorMessage := api_message apiError in
  failure (FailedToGenerate errorMessage (helpfulMessage errorMessage)).

(** The success response, lines 339-358 and 363-382; [inl] is the
    [TypeError] of an interpolation, in the order of the template. *)
Definition success (input : object) (generationTime : Z)
    (image : image_outcome) (url : string)
    : thrown + response (text report) :=
  prompt <~ interpolate (prop "prompt" input) ;;
  aspect_ratio <~ interpolate (prop "aspect_ratio" input) ;;
  sizing <~
    (if truthy (prop "size" input)
     then size <~ interpolate (prop "size" input) ;; inr (SizeLine size)
     else width <~ interpolate (prop "width" input) ;;
          height <~ interpolate (prop "height" input) ;;
          inr (DimensionsLine width height)) ;;
  guidance_scale <~ interpolate (prop "guidance_scale" input) ;;
  seed <~
    (if truthy (prop "seed" input)
     then seed <~ interpolate (prop "seed" input) ;; inr (Some seed)
     else inr None) ;;
  inr (Response
         (SuccessText
            {| r_prompt := prompt;
               r_aspect_ratio := aspect_ratio;
               r_sizing := sizing;
               r_guidance_scale := guidance_scale;
               r_seed := seed;
               r_generationTime := generationTime;
               r_image := image;
               r_originalUrl := url |})
         false).

(** [downloadError instanceof Error ? downloadError.message
                                    : 'Unknown error'] *)
Definition download_message (downloadError : thrown) : string :=
  match downloadError with
  | JsError m => m
  | NotAnError => "Unknown error"
  end.

(** Lines 306-400: the inner [try] block. *)
Definition generate (params : gmap string value) (input : object)
    : prog (response (text report)) :=
  DateNow (fun startTime =>
  ReplicateRun "bytedance/seedream-3" input (fun raced =>
    match raced with
    | TimerFired => Ret (api_catch (JsError "Request timeout"))
    | Settled (Rejected e) => Ret (api_catch e)
    | Settled (Fulfilled out) =>
        DateNow (fun now =>
          let generationTime := (now - startTime)%Z in
          if negb (output_truthy out) then
            Ret (api_catch (JsError EMPTY_OUTPUT))
          else
            match out with
            | Plain (Str url) =>
                if negb (startsWith url "http") then
                  Ret (api_catch (JsError
                    ("Invalid response format from Replicate: "
                     ++ output_typeof out)))
                else
                  let prompt := string_of (get params "prompt") in
                  seed <- (if truthy (prop "seed" input)
                           then Ret (prop "seed" input)
                           else MathRandom (fun r =>
                                  Ret (int (Qfloor (r * 1000000))))) ;;
                  filename <- generateImageFilename prompt 1 seed ;;
                  match filename with
                  | inl e => Ret (api_catch e)
                  | inr filename =>
                      (* the [catch (downloadError)] clause; an
                         exception of its own goes to the clause
                         outside *)
                      let download_failed downloadError :=
                        match success input generationTime
                                (DownloadFailedMsg
                                   (download_message downloadError)) url with
                        | inl e => api_catch e
                        | inr response => response
                        end in
                      r <- downloadImage url filename ;;
                      match r with
                      | Fulfilled localPath =>
                          match success input generationTime
                                        (LocalPath localPath) url with
                          | inl e => Ret (download_failed e)
                          | inr response => Ret response
                          end
                      | Rejected downloadError =>
                          Ret (download_failed downloadError)
                      end
                  end
            | _ =>
                Ret (api_catch (JsError
                  ("Invalid response format from Replicate: "
                   ++ output_typeof out)))
            end)
    end)).

(** The [generate_image] case of the handler, lines 253-426. *)
Definition handler (replicate : option client)
    (arguments : option (gmap string value)) : prog (response (text report)) :=
  match replicate with
  | None => Ret (Response (ConfigErrorText CONFIG_ERROR_TEXT) true)
  | Some _ =>
      let params := default ∅ arguments in
      match normalize params with
      | inl e => Ret (failure (Thrown (message e)))
      | inr input => generate params input
      end
  end.

Definition call_tool (replicate : option client) (name : string)
    (arguments : option (gmap string value))
    : prog (string + response (text report)) :=
  if String.eqb name "generate_image" then
    r <- handler replicate arguments ;; Ret (inr r)
  else Ret (inl ("Unknown tool: " ++ name)).
End Handler.
End V3.

(** ** The two servers side by side *)

Inductive version := SeedDream3 | SeedDream4.

Definition report (v : version) : Type :=
  match v with
  | SeedDream3 => V3.report
  | SeedDream4 => V4.report
  end.

Definition message (v : version) : error -> string :=
  match v with
  | SeedDream3 => V3.message
  | SeedDream4 => V4.message
  end.

Definition VALID_ASPECT_RATIOS (v : version) : list string :=
  match v with
  | SeedDream3 => V3.VALID_ASPECT_RATIOS
  | SeedDream4 => V4.VALID_ASPECT_RATIOS
  end.

Definition VALID_SIZES (v : version) : list string :=
  match v with
  | SeedDream3 => V3.VALID_SIZES
  | SeedDream4 => V4.VALID_SIZES
  end.

(** The field whose value ["custom"] selects explicit pixel dimensions. *)
Definition custom_axis (v : version) : string :=
  match v with
  | SeedDream3 => "aspect_ratio"
  | SeedDream4 => "size"
  end.

Definition checks (v : version) : list error :=
  match v with
  | SeedDream3 => V3.checks
  | SeedDream4 => V4.checks
  end.

Section Versions.
Context `{Host}.

Definition normalize (v : version) : gmap string value -> throws object :=
  match v with
  | SeedDream3 => V3.normalize
  | SeedDream4 => V4.normalize
  end.

Definition build_input (v : version) : gmap string value -> object :=
  match v with
  | SeedDream3 => V3.build_input
  | SeedDream4 => V4.build_input
  end.

Definition condition (v : version)
    : error -> gmap string value -> throws bool :=
  match v with
  | SeedDream3 => V3.condition
  | SeedDream4 => V4.condition
  end.

Definition handler (v : version)
    : option client -> option (gmap string value)
      -> prog (response (text (report v))) :=
  match v with
  | SeedDream3 => V3.handler
  | SeedDream4 => V4.handler
  end.

Definition call_tool (v : version)
    : option client -> string -> option (gmap string value)
      -> prog (string + response (text (report v))) :=
  match v with
  | SeedDream3 => V3.call_tool
  | SeedDream4 => V4.call_tool
  end.

(** Normalization throws [e], and the handler answers with that error
    without a single call to the outside. *)
Definition fails_before_upstream (v : version)
    (params : gmap string value) (e : error) : Prop :=
  normalize v params = inl e
  /\ forall c St (w : world St) s,
      let r := exec w (handler v (Some c) (Some params)) s in
      calls r = []
      /\ returned r = Response (ErrorText (Thrown (message v e))) true.
End Versions.

(** ** Reading a trace *)

(** The payloads sent upstream. *)
Fixpoint payloads (cs : list call) : list object :=
  match cs with
  | [] => []
  | CallRun _ input _ :: rest => input :: payloads rest
  | CallDownload _ _ _ :: rest => payloads rest
  end.

(** The URLs whose download was attempted. *)
Fixpoint download_urls (cs : list call) : list string :=
  match cs with
  | [] => []
  | CallDownload url _ _ :: rest => url :: download_urls rest
  | CallRun _ _ _ :: rest => download_urls rest
  end.

Definition fulfilled (c : call) : bool :=
  match c with
  | CallDownload _ _ (Fulfilled _) => true
  | _ => false
  end.

(** The lines of [imageDetails] that the answers to the downloads call
    for, the first download being image number [i + 1]. *)
Fixpoint expected_lines (i : nat) (cs : list call) : list image_line :=
  match cs with
  | [] => []
  | CallDownload url filePath (Fulfilled _) :: rest =>
      SavedLine (i + 1) filePath url :: expected_lines (S i) rest
  | CallDownload url _ (Rejected _) :: rest =>
      DownloadFailedLine (i + 1) url :: expected_lines (S i) rest
  | CallRun _ _ _ :: rest => expected_lines i rest
  end.

(** ** Classes of inputs *)

(** The request [params] with [k] set to [o], or left as it is. *)
Definition with_field (k : string) (o : option value)
    (params : gmap string value) : gmap string value :=
  match o with
  | Some v => <[k := v]> params
  | None => params
  end.

(** A dimension that is absent, or a number. *)
Definition pixels (o : option Q) : option value :=
  (fun q => Num (Finite q)) <$> o.

(** The number [q] is given, is not zero and lies outside [lo..hi]. *)
Definition out_of_range (lo hi : Q) (o : option Q) : Prop :=
  match o with
  | Some q => ~ (q == 0)%Q /\ ~ (lo <= q <= hi)%Q
  | None => False
  end.

(** The number, if given, lies in [lo..hi]. *)
Definition in_range (lo hi : Q) (o : option Q) : Prop :=
  match o with
  | Some q => (lo <= q <= hi)%Q
  | None => True
  end.

(** [prompt] is absent, is not a string, or is the empty string. *)
Definition prompt_missing (params : gmap string value) : Prop :=
  params !! "prompt" = None
  \/ (exists v, params !! "prompt" = Some v /\ typeof v <> "string")
  \/ params !! "prompt" = Some (Str "").

(** The value resolved upstream is an empty array, or no array. *)
Definition empty_or_not_array (out : output) : Prop :=
  out = Files []
  \/ exists v, out = Plain v /\ (v = Arr [] \/ forall xs, v <> Arr xs).

(** ** A host and a world to run examples in *)

Definition digit (c : ascii) : option Z :=
  if is_digit c then Some (Z.of_nat (nat_of_ascii c) - 48)%Z else None.

Fixpoint digits (acc : Z) (s : string) : option Z :=
  match s with
  | EmptyString => Some acc
  | String c rest =>
      match digit c with
      | Some d => digits (10 * acc + d)%Z rest
      | None => None
      end
  end.

(** Exact on integers and on strings of decimal digits, which is all the
    examples below use. *)
#[local] Instance example_host : Host := {|
  StringToNumber s :=
    match digits 0 s with
    | Some z => Finite (inject_Z z)
    | None => NaN
    end;
  NumberToString n :=
    match n with
    | Finite q => pretty (Qfloor q)
    | PosInf => "Infinity"
    | NegInf => "-Infinity"
    | NaN => "NaN"
    end;
  TypeErrorMessage _ := "output[i].url is not a function";
  ConversionErrorMessage _ := "Cannot convert object to primitive value"
|}.

(** A world whose state counts the calls made so far: the clock advances
    by one second per reading, upstream resolves [out], and the download
    number [n] (from 0) fails exactly when [fails n]. *)
Definition example_world (out : output) (fails : nat -> bool)
    : world (nat * nat) :=
  World
    (fun '(t, n) => ((1762139340000 + 1000 * Z.of_nat t)%Z, (S t, n)))
    (fun '(t, n) => ("2026-11-03T03:09:00.000Z", (S t, n)))
    (fun s => (1 # 2, s))
    (fun s => ("/srv/mcp", s))
    (fun _ _ s => (Settled (Fulfilled out), s))
    (fun _ _ '(t, n) =>
       (if fails n then Rejected (JsError "Failed to download image: 404")
        else Fulfilled tt, (t, S n))).

Definition token_client : client := Client "r8_token".

Definition three_urls : list string :=
  [ "https://replicate.delivery/a.jpg";
    "https://replicate.delivery/b.jpg";
    "https://replicate.delivery/c.jpg" ].

(** ** The logger *)

(** The names every object literal inherits from [Object.prototype]. *)
Definition OBJECT_PROTOTYPE_KEYS : list string :=
  [ "constructor"; "__defineGetter__"; "__defineSetter__"; "hasOwnProperty";
    "__lookupGetter__"; "__lookupSetter__"; "isPrototypeOf";
    "propertyIsEnumerable"; "toString"; "valueOf"; "__proto__";
    "toLocaleString" ].

(** What [logLevels[k]] evaluates to: the number of an own key, a
    function or object inherited from the prototype, or [undefined]. *)
Inductive member :=
| Level (n : nat)
| Inherited
| Absent.

Definition logLevels (k : string) : member :=
  if String.eqb k "error" then Level 0
  else if String.eqb k "warn" then Level 1
  else if String.eqb k "info" then Level 2
  else if String.eqb k "debug" then Level 3
  else if existsb (String.eqb k) OBJECT_PROTOTYPE_KEYS then Inherited
  else Absent.

(** [m || d] for a numeric literal [d] *)
Definition member_or (m : member) (d : nat) : member :=
  match m with
  | Level 0 | Absent => Level d
  | Level _ | Inherited => m
  end.

(** [a <= b]: an inherited function or object converts to [NaN]. *)
Definition member_le (a b : member) : bool :=
  match a, b with
  | Level x, Level y => (x <=? y)%nat
  | _, _ => false
  end.

(** [process.env.LOG_LEVEL || 'info'] *)
Definition LOG_LEVEL_of (env : option string) : string :=
  match env with
  | Some s => if String.eqb s "" then "info" else s
  | None => "info"
  end.

Definition upper (c : ascii) : ascii :=
  if is_lower c then ascii_of_nat (nat_of_ascii c - 32) else c.

(** The arguments of one [console.error] call. *)
Record log_line := LogLine {
  ll_text : string;
  ll_data : option value
}.

(** The test [messageLevel <= currentLevel] of [log]. *)
Definition log_enabled (LOG_LEVEL level : string) : bool :=
  let currentLevel := member_or (logLevels LOG_LEVEL) 2 in
  let messageLevel := member_or (logLevels level) 0 in
  member_le messageLevel currentLevel.

(** [log(level, message, data)], given the time stamp it reads: the
    line written to stderr, if any. *)
Definition log (LOG_LEVEL timestamp level message : string) (data : value)
    : option log_line :=
  if log_enabled LOG_LEVEL level then
    let prefix := "[" ++ timestamp ++ "] [" ++ map_chars upper level ++ "]" in
    Some (LogLine (prefix ++ " " ++ message)
                  (if truthy data then Some data else None))
  else None.

(** ** Shapes of strings and of upstream elements *)

Fixpoint all_chars (f : ascii -> bool) (s : string) : bool :=
  match s with
  | EmptyString => true
  | String c rest => f c && all_chars f rest
  end.

Definition is_underscore (c : ascii) : bool := Ascii.eqb c "_".

(** What the first [replace] of [safePrompt] keeps. *)
Definition kept_char (c : ascii) : bool :=
  is_lower c || is_digit c || is_space c.

(** A lower-case letter, a digit or an underscore. *)
Definition safe_char (c : ascii) : bool :=
  is_lower c || is_digit c || is_underscore c.

(** No two underscores in a row. *)
Fixpoint no_double_underscore (s : string) : bool :=
  match s with
  | EmptyString => true
  | String c rest =>
      match rest with
      | String c' _ =>
          negb (is_underscore c && is_underscore c')
          && no_double_underscore rest
      | EmptyString => true
      end
  end.

Definition starts_with_underscore (s : string) : bool :=
  match s with
  | String c _ => is_underscore c
  | EmptyString => false
  end.

(** The test of the download loop on [imageUrl], negated: a non-empty
    string that starts with [http]. *)
Definition valid_url (v : value) : bool :=
  match v with
  | Str u => truthy (Str u) && startsWith u "http"
  | _ => false
  end.

Fixpoint valid_urls (vs : list value) : list string :=
  match vs with
  | [] => []
  | Str u :: rest =>
      if valid_url (Str u) then u :: valid_urls rest else valid_urls rest
  | _ :: rest => valid_urls rest
  end.

(** [v] has a text: [`${v}`] does not throw. *)
Definition printable `{Host} (v : value) : Prop := is_Some (ToString v).


(** The fields the 4.0 server compares with numbers, each with the
    error of its check. *)
Definition V4_range_checked : list (string * error) :=
  [ ("max_images", InvalidMaxImages);
    ("width", InvalidDimensions Width);
    ("height", InvalidDimensions Height) ].


(** The model name each server runs. *)
Definition model (v : version) : string :=
  match v with
  | SeedDream3 => "bytedance/seedream-3"
  | SeedDream4 => "bytedance/seedream-4"
  end.

Definition helpfulMessage (v : version) : string -> option tip :=
  match v with
  | SeedDream3 => V3.helpfulMessage
  | SeedDream4 => V4.helpfulMessage
  end.

(** The message with which the race fails, if it fails: the rejection
    of the upstream call, or the timer. *)
Definition failure_message (answer : race) : option string :=
  match answer with
  | TimerFired => Some "Request timeout"
  | Settled (Rejected e) => Some (api_message e)
  | Settled (Fulfilled _) => None
  end.

(** The output the 3.0 server goes on to download: a non-empty string
    that starts with [http]. *)
Definition V3_image_url (out : output) : option string :=
  match out with
  | Plain (Str url) => if valid_url (Str url) then Some url else None
  | _ => None
  end.

(** ** The tool listing *)

(** One entry of [inputSchema.properties], with the keywords the two
    servers use. *)
Record property_schema := PropertySchema {
  ps_type : string;
  ps_description : string;
  ps_enum : option (list string);
  ps_items : option string;
  ps_minimum : option Q;
  ps_maximum : option Q;
  ps_maxItems : option nat;
  ps_default : option value
}.

(** One entry of [tools]; the schema is of type ["object"]. *)
Record tool := Tool {
  t_name : string;
  t_description : string;
  t_properties : list (string * property_schema);
  t_required : list string
}.

Fixpoint property (k : string) (ps : list (string * property_schema))
    : option property_schema :=
  match ps with
  | [] => None
  | (k', p) :: rest => if String.eqb k' k then Some p else property k rest
  end.

(** The answer of the [ListToolsRequestSchema] handler of the 4.0 server. *)
Definition V4_tools : list tool :=
  [ Tool "generate_image"
      "Generate images using Bytedance's SeedDream 4.0 model via Replicate. Supports bilingual prompts (Chinese and English), high-resolution output up to 4K, image-to-image generation, and sequential image generation."
      [ ("prompt",
          PropertySchema "string"
            "The text prompt used to generate the image. Supports both English and Chinese. Be descriptive for best results."
            None None None None None None);
        ("size",
          PropertySchema "string"
            "Image resolution: 1K (1024px), 2K (2048px), 4K (4096px), or 'custom' for specific dimensions."
            (Some V4.VALID_SIZES) None None None None (Some (Str "2K")));
        ("width",
          PropertySchema "integer"
            "Custom image width (only used when size='custom'). Range: 1024-4096 pixels."
            None None (Some 1024%Q) (Some 4096%Q) None (Some (int 2048)));
        ("height",
          PropertySchema "integer"
            "Custom image height (only used when size='custom'). Range: 1024-4096 pixels."
            None None (Some 1024%Q) (Some 4096%Q) None (Some (int 2048)));
        ("max_images",
          PropertySchema "integer"
            "Maximum number of images to generate when sequential_image_generation='auto'. Range: 1-15. Total images (input + generated) cannot exceed 15."
            None None (Some 1%Q) (Some 15%Q) None (Some (int 1)));
        ("image_input",
          PropertySchema "array"
            "Input image URLs for image-to-image generation. List of 1-10 images for single or multi-reference generation."
            None (Some "string") None None (Some 10%nat) (Some (Arr [])));
        ("aspect_ratio",
          PropertySchema "string"
            "Image aspect ratio. Only used when size is not 'custom'. Use 'match_input_image' to automatically match the input image's aspect ratio."
            (Some V4.VALID_ASPECT_RATIOS) None None None None
            (Some (Str "match_input_image")));
        ("sequential_image_generation",
          PropertySchema "string"
            "Group image generation mode. 'disabled' generates a single image. 'auto' lets the model decide whether to generate multiple related images (e.g., story scenes, character variations)."
            (Some V4.VALID_SEQUENTIAL_MODES) None None None None
            (Some (Str "disabled"))) ]
      [ "prompt" ] ].

(** The answer of the [ListToolsRequestSchema] handler of the 3.0 server. *)
Definition V3_tools : list tool :=
  [ Tool "generate_image"
      "Generate images using Bytedance's SeedDream 3.0 model via Replicate. Supports bilingual prompts (Chinese and English), high-resolution output, and various aspect ratios."
      [ ("prompt",
          PropertySchema "string"
            "The text prompt used to generate the image. Supports both English and Chinese. Be descriptive for best results."
            None None None None None None);
        ("aspect_ratio",
          PropertySchema "string"
            "Image aspect ratio. Set to 'custom' to specify width and height."
            (Some V3.VALID_ASPECT_RATIOS) None None None None
            (Some (Str "16:9")));
        ("size",
          PropertySchema "string"
            "Big images will have their longest dimension be 2048px. Small images will have their shortest dimension be 512px. Regular images will always be 1 megapixel. Ignored if aspect ratio is custom."
            (Some V3.VALID_SIZES) None None None None (Some (Str "regular")));
        ("width",
          PropertySchema "integer"
            "Image width (only used when aspect_ratio is 'custom')"
            None None (Some 512%Q) (Some 2048%Q) None (Some (int 2048)));
        ("height",
          PropertySchema "integer"
            "Image height (only used when aspect_ratio is 'custom')"
            None None (Some 512%Q) (Some 2048%Q) None (Some (int 2048)));
        ("guidance_scale",
          PropertySchema "number"
            "Prompt adherence. Higher = more literal."
            None None (Some 1%Q) (Some 10%Q) None
            (Some (Num (Finite (5 # 2)))));
        ("seed",
          PropertySchema "integer"
            "Random seed to control the stochasticity of image generation. Use the same seed for reproducible results."
            None None (Some 0%Q) (Some 2147483647%Q) None None) ]
      [ "prompt" ] ].

Definition tools (v : version) : list tool :=
  match v with
  | SeedDream3 => V3_tools
  | SeedDream4 => V4_tools
  end.

(** The properties advertised for [generate_image]. *)
Definition advertised (v : version) : list (string * property_schema) :=
  match tools v with
  | t :: _ => t_properties t
  | [] => []
  end.

(** What the keywords of a property schema ask of a value, as JSON
    Schema reads them. *)
Definition is_integer (n : number) : bool :=
  match n with
  | Finite q => Qeq_bool q (inject_Z (Qfloor q))
  | _ => false
  end.

Definition has_type (ty : string) (v : value) : bool :=
  match v with
  | Str _ => String.eqb ty "string"
  | Num n =>
      (String.eqb ty "integer" && is_integer n)
      || (String.eqb ty "number"
          && match n with Finite _ => true | _ => false end)
  | Arr _ => String.eqb ty "array"
  | Obj _ => String.eqb ty "object"
  | Bool _ => String.eqb ty "boolean"
  | Null => String.eqb ty "null"
  | Undefined => false
  end.

Definition conforms_to (p : property_schema) (v : value) : bool :=
  has_type (ps_type p) v
  && match ps_enum p with
     | Some allowed => includes allowed v
     | None => true
     end
  && match ps_minimum p, v with
     | Some lo, Num n => negb (num_lt n (Finite lo))
     | _, _ => true
     end
  && match ps_maximum p, v with
     | Some hi, Num n => negb (num_lt (Finite hi) n)
     | _, _ => true
     end
  && match ps_maxItems p, v with
     | Some m, Arr xs => (length xs <=? m)%nat
     | _, _ => true
     end
  && match ps_items p, v with
     | Some ty, Arr xs => forallb (has_type ty) xs
     | _, _ => true
     end.

(** The arguments conform to the schema of a tool: the required
    properties are there, and each advertised property that is there
    conforms to its entry. *)
Definition conforms (t : tool) (params : gmap string value) : Prop :=
  (forall k, In k (t_required t) -> is_Some (params !! k))
  /\ forall k p v,
       property k (t_properties t) = Some p ->
       params !! k = Some v ->
       conforms_to p v = true.

(** A world like [example_world], where the race is answered by
    [answer]. *)
Definition answering_world (answer : race) (fails : nat -> bool)
    : world (nat * nat) :=
  World
    (fun '(t, n) => ((1762139340000 + 1000 * Z.of_nat t)%Z, (S t, n)))
    (fun '(t, n) => ("2026-11-03T03:09:00.000Z", (S t, n)))
    (fun s => (1 # 2, s))
    (fun s => ("/srv/mcp", s))
    (fun _ _ s => (answer, s))
    (fun _ _ '(t, n) =>
       (if fails n then Rejected (JsError "Failed to download image: 404")
        else Fulfilled tt, (t, S n))).

Definition fox_request : gmap string value :=
  {[ "prompt" := Str "a red fox" ]}.


Definition custom_request : gmap string value :=
  {[ "prompt" := Str "a red fox"; "size" := Str "custom";
     "width" := int 1024; "max_images" := int 15 ]}.

(** * Properties *)

Section Properties.
Context `{Host}.

(** ** Reading the arguments, writing the payload *)

Lemma get_insert_eq (params : gmap string value) k v :
  get (<[k := v]> params) k = v.
Proof. unfold get. by rewrite lookup_insert_eq. Qed.

Lemma get_insert_ne (params : gmap string value) k k' v :
  k ≠ k' → get (<[k := v]> params) k' = get params k'.
Proof. intros Hne. unfold get. by rewrite lookup_insert_ne. Qed.

Ltac read_request :=
  repeat (rewrite get_insert_eq || rewrite get_insert_ne by done).

Lemma has_key_set_prop k k' v o :
  has_key k (set_prop k' v o) = String.eqb k' k || has_key k o.
Proof.
  induction o as [|[k0 v0] o IH]; simpl.
  - reflexivity.
  - destruct (String.eqb k0 k') eqn:E; simpl.
    + apply String.eqb_eq in E as ->.
      by destruct (String.eqb k' k).
    + rewrite IH. by destruct (String.eqb k0 k), (String.eqb k' k).
Qed.

Lemma prop_set_prop_ne k k' v o :
  String.eqb k' k = false → prop k (set_prop k' v o) = prop k o.
Proof.
  intros Hne. induction o as [|[k0 v0] o IH]; simpl.
  - by rewrite Hne.
  - destruct (String.eqb k0 k') eqn:E; simpl.
    + apply String.eqb_eq in E as ->. by rewrite Hne.
    + by rewrite IH.
Qed.

Lemma normalize_inr v params input :
  normalize v params = inr input →
  input = match v with
          | SeedDream3 => V3.build_input params
          | SeedDream4 => V4.build_input params
          end.
Proof.
  destruct v; simpl; unfold V3.normalize, V4.normalize;
    [destruct (V3.validate params) | destruct (V4.validate params)];
    simpl; congruence.
Qed.

(** [a || "d"] is ["custom"] exactly when [a] is, for a default other
    than ["custom"]. *)
Lemma custom_or_else a d :
  String.eqb d "custom" = false →
  strict_eq_str (or_else a (Str d)) "custom" = strict_eq_str a "custom".
Proof.
  intros Hd. unfold or_else. destruct (truthy a) eqn:Ht; [reflexivity|].
  simpl. rewrite Hd. destruct a; simpl in *; try reflexivity.
  apply negb_false_iff, String.eqb_eq in Ht as ->. reflexivity.
Qed.

Lemma nonzero_truthy q : ¬ (q == 0)%Q → negb (Qeq_bool q 0) = true.
Proof.
  intros Hq. apply negb_true_iff. destruct (Qeq_bool q 0) eqn:E; [|done].
  by apply Qeq_bool_iff in E.
Qed.

Lemma or_else_nonzero q d :
  ¬ (q == 0)%Q → or_else (Num (Finite q)) d = Num (Finite q).
Proof. intros Hq. unfold or_else. simpl. by rewrite nonzero_truthy. Qed.

Lemma out_of_bound lo hi q :
  ¬ (lo <= q <= hi)%Q → negb (Qle_bool lo q) || negb (Qle_bool q hi) = true.
Proof.
  intros Hout. destruct (Qle_bool lo q) eqn:E1; [|reflexivity].
  destruct (Qle_bool q hi) eqn:E2; [|reflexivity].
  apply Qle_bool_iff in E1, E2. tauto.
Qed.

Lemma in_bound lo hi q :
  (lo <= q <= hi)%Q → negb (Qle_bool lo q) || negb (Qle_bool q hi) = false.
Proof.
  intros [H1 H2]. apply Qle_bool_iff in H1, H2. by rewrite H1, H2.
Qed.

(** ** Validation *)

Lemma rejected_before_upstream v params e :
  normalize v params = inl e → fails_before_upstream v params e.
Proof.
  intros Hn. split; [exact Hn|]. intros c St w s.
  destruct v; simpl in *; unfold V3.handler, V4.handler; simpl;
    rewrite Hn; done.
Qed.

Lemma prompt_check_fires params :
  prompt_missing params →
  negb (truthy (get params "prompt"))
  || negb (String.eqb (typeof (get params "prompt")) "string") = true.
Proof.
  unfold get. intros [-> | [(v & -> & Hty) | ->]]; simpl; try reflexivity.
  apply orb_true_iff. right. apply negb_true_iff.
  by apply String.eqb_neq.
Qed.

Ltac pass_check Hv :=
  match type of Hv with
  | context [throw_if ?c _] =>
      destruct c; simpl in Hv; [discriminate Hv|]; simpl
  end.

(** *** Conditions that convert their operand *)

Lemma throw_when_inr b e : throw_when (inr b) e = throw_if b e.
Proof. reflexivity. Qed.

Lemma and_b_inr a b : and_b a (inr b) = inr (a && b).
Proof. by destruct a. Qed.

Lemma or_b_inr a b : or_b (inr a) (inr b) = inr (a || b).
Proof. by destruct a. Qed.

Lemma and_then_tt {E} (m : E + unit) : (m ;;; inr tt) = m.
Proof. by destruct m as [|[]]. Qed.

(** [x && (x < lo || x > hi)] on a number *)
Lemma range_check_number q (lo hi : Z) :
  and_b (truthy (Num (Finite q)))
        (or_b (lt (Num (Finite q)) lo) (gt (Num (Finite q)) hi)) =
    inr (negb (Qeq_bool q 0)
         && (negb (Qle_bool (inject_Z lo) q)
             || negb (Qle_bool q (inject_Z hi)))).
Proof. unfold lt, gt. cbn [ToNumber]. by rewrite or_b_inr, and_b_inr. Qed.

(** A number, a string, a boolean, [null] and [undefined] convert; so
    does whatever has been compared with a number. *)
Lemma ToNumber_ToString v n :
  ToNumber v = Some n → ∃ s, ToString v = Some s.
Proof.
  destruct v as [| |b|m|s|xs|fields]; try (simpl; by eauto);
    cbn [ToNumber]; (destruct (ToString _); [by eauto | done]).
Qed.

Lemma lt_inr v c b : lt v c = inr b → ∃ s, ToString v = Some s.
Proof.
  unfold lt. destruct (ToNumber v) eqn:E; [|done]. intros _.
  by eapply ToNumber_ToString.
Qed.

Lemma gt_inr v c b : gt v c = inr b → ∃ s, ToString v = Some s.
Proof.
  unfold gt. destruct (ToNumber v) eqn:E; [|done]. intros _.
  by eapply ToNumber_ToString.
Qed.

(** *** Validation is its checks, the first failure winning *)

Lemma first_failure_fires before e after cond :
  Forall (λ e', cond e' = inr false) before →
  cond e = inr true →
  first_failure (before ++ e :: after) cond = inl e.
Proof.
  intros Hpass Hfire. induction Hpass as [|e' before He' _ IH]; simpl.
  - by rewrite Hfire.
  - by rewrite He'.
Qed.

Lemma first_failure_passes es cond :
  first_failure es cond = inr tt ↔ Forall (λ e, cond e = inr false) es.
Proof.
  induction es as [|e es IH]; simpl.
  - split; [constructor | done].
  - rewrite Forall_cons. destruct (cond e) as [err|[|]]; simpl.
    + split; [done | by intros [? _]].
    + split; [done | by intros [? _]].
    + rewrite IH. tauto.
Qed.

Lemma V4_validate_checks params :
  V4.validate params = first_failure V4.checks (λ e, V4.condition e params).
Proof.
  unfold V4.validate, V4.checks. cbn [first_failure V4.condition]. cbv zeta.
  rewrite !throw_when_inr.
  destruct (strict_eq_str (get params "size") "custom").
  - by rewrite and_then_tt.
  - by rewrite !throw_when_inr.
Qed.

Lemma V3_validate_checks params :
  V3.validate params = first_failure V3.checks (λ e, V3.condition e params).
Proof.
  unfold V3.validate, V3.checks. cbn [first_failure V3.condition]. cbv zeta.
  by rewrite !throw_when_inr, and_then_tt.
Qed.

Lemma normalize_checks v params :
  normalize v params =
    (first_failure (checks v) (λ e, condition v e params) ;;;
     inr (build_input v params)).
Proof.
  destruct v; simpl; unfold V3.normalize, V4.normalize.
  - by rewrite V3_validate_checks.
  - by rewrite V4_validate_checks.
Qed.

Lemma validate_inr v params input :
  normalize v params = inr input →
  Forall (λ e, condition v e params = inr false) (checks v)
  ∧ input = build_input v params.
Proof.
  rewrite normalize_checks.
  destruct (first_failure _ _) as [|[]] eqn:E; simpl; [done|].
  intros [= <-]. split; [|done]. by apply first_failure_passes.
Qed.

(** ** Custom dimensions *)

Lemma get_with_field_ne k k' o (params : gmap string value) :
  k ≠ k' → get (with_field k o params) k' = get params k'.
Proof. intros Hne. destruct o; simpl; [by apply get_insert_ne | done]. Qed.

Lemma get_with_field_eq k o (params : gmap string value) :
  params !! k = None → get (with_field k o params) k = default Undefined o.
Proof.
  intros Hk. destruct o; simpl; [apply get_insert_eq|].
  unfold get. by rewrite Hk.
Qed.

Lemma lookup_with_field_ne k k' o (params : gmap string value) :
  k ≠ k' → with_field k o params !! k' = params !! k'.
Proof. intros Hne. destruct o; simpl; [by apply lookup_insert_ne | done]. Qed.

Ltac read_fields :=
  repeat first
    [ rewrite get_with_field_ne by done
    | rewrite get_with_field_eq by (by rewrite ?lookup_with_field_ne) ].

(** Once the six earlier checks of the 4.0 server have passed on a
    request in custom mode that has no dimensions, what is left of
    validation when dimensions are added is the two dimension checks. *)
Lemma V4_validate_dimensions params (w h : option value) :
  get params "size" = Str "custom" →
  params !! "width" = None →
  params !! "height" = None →
  V4.validate params = inr tt →
  let range_check x :=
    and_b (truthy x) (or_b (lt x 1024) (gt x 4096)) in
  V4.validate (with_field "width" w (with_field "height" h params)) =
    (throw_when (range_check (default Undefined w))
                (InvalidDimensions Width) ;;;
     throw_when (range_check (default Undefined h))
                (InvalidDimensions Height)).
Proof.
  intros Hsize Hw Hh Hv range_check. unfold V4.validate in *.
  read_fields. do 4 pass_check Hv.
  destruct (and_b (truthy (get params "max_images")) _) as [?|[|]];
    [done..|]. simpl in Hv. simpl.
  destruct (and_b (truthy (get params "image_input")) _) as [?|[|]];
    [done..|]. simpl.
  by rewrite Hsize.
Qed.

(** The 3.0 server does not read [width] or [height] while validating. *)
Lemma V3_validate_dimensions params w h :
  V3.validate (with_field "width" w (with_field "height" h params)) =
    V3.validate params.
Proof. unfold V3.validate. by read_fields. Qed.

Lemma range_check_out_of_range (lo hi : Z) o :
  out_of_range (inject_Z lo) (inject_Z hi) o →
  let x := default Undefined (pixels o) in
  and_b (truthy x) (or_b (lt x lo) (gt x hi)) = inr true.
Proof.
  destruct o as [q|]; [|done]. intros [Hnz Hout] x. subst x.
  change (default Undefined (pixels (Some q))) with (Num (Finite q)).
  by rewrite range_check_number, nonzero_truthy, out_of_bound.
Qed.

Lemma range_check_not_out_of_range (lo hi : Z) o :
  ¬ out_of_range (inject_Z lo) (inject_Z hi) o →
  let x := default Undefined (pixels o) in
  and_b (truthy x) (or_b (lt x lo) (gt x hi)) = inr false.
Proof.
  destruct o as [q|]; [|done]. intros Hnot x. subst x.
  change (default Undefined (pixels (Some q))) with (Num (Finite q)).
  rewrite range_check_number. f_equal.
  destruct (Qeq_bool q 0) eqn:Ez; [done|]. simpl.
  destruct (Qle_bool (inject_Z lo) q) eqn:E1; simpl.
  - destruct (Qle_bool q (inject_Z hi)) eqn:E2; simpl; [done|].
    exfalso. apply Hnot. split.
    + intros E. apply Qeq_bool_iff in E. congruence.
    + intros [_ Hle]. apply Qle_bool_iff in Hle. congruence.
  - exfalso. apply Hnot. split.
    + intros E. apply Qeq_bool_iff in E. congruence.
    + intros [Hle _]. apply Qle_bool_iff in Hle. congruence.
Qed.

Lemma in_range_not_out lo hi o : in_range lo hi o → ¬ out_of_range lo hi o.
Proof. destruct o; simpl; tauto. Qed.

(** [x || 2048] on a dimension that is absent or in bound *)
Lemma or_else_in_range lo hi o :
  (0 < lo)%Q →
  in_range lo hi o →
  or_else (default Undefined (pixels o)) (int 2048) =
    Num (Finite (default 2048%Q o)).
Proof.
  intros Hlo. destruct o as [q|]; [|done]. simpl. intros [Hq _].
  apply or_else_nonzero. intros E. rewrite E in Hq. lra.
Qed.

(** C1 (amended).  Take a request that is accepted, in custom sizing
    mode and without dimensions, and add a [width], a [height] or both.
    On the 4.0 server: a numeric width that is not zero and lies outside
    1024..4096 makes normalization throw the width error, whatever the
    height is or is not; when the width is absent, zero or in bound, a
    numeric height that is not zero and lies outside 1024..4096 makes it
    throw the height error; in both cases the handler answers before any
    call to the outside.  When each dimension is absent or in bound (the
    bounds included) the request is accepted, and the payload carries
    the given dimension, or 2048 for an absent one.  On the 3.0 server
    there is no dimension check: whatever [width] and [height] are, the
    request is accepted, and the payload carries [width || 2048] and
    [height || 2048]. *)
Theorem custom_dimensions v params input :
  normalize v params = inr input →
  get params (custom_axis v) = Str "custom" →
  params !! "width" = None →
  params !! "height" = None →
  let request (w h : option value) : gmap string value :=
    with_field "width" w (with_field "height" h params) in
  let accepted (request : gmap string value) (width height : value) :=
    ∃ input', normalize v request = inr input'
              ∧ prop "width" input' = width
              ∧ prop "height" input' = height in
  match v with
  | SeedDream3 =>
      ∀ w h : option value,
        accepted (request w h)
                 (or_else (default Undefined w) (int 2048))
                 (or_else (default Undefined h) (int 2048))
  | SeedDream4 =>
      (∀ (w : option Q) (h : option value),
         out_of_range 1024 4096 w →
         fails_before_upstream v (request (pixels w) h)
                               (InvalidDimensions Width))
      ∧ (∀ w h : option Q,
           ¬ out_of_range 1024 4096 w →
           out_of_range 1024 4096 h →
           fails_before_upstream v (request (pixels w) (pixels h))
                                 (InvalidDimensions Height))
      ∧ (∀ w h : option Q,
           in_range 1024 4096 w →
           in_range 1024 4096 h →
           accepted (request (pixels w) (pixels h))
                    (Num (Finite (default 2048%Q w)))
                    (Num (Finite (default 2048%Q h))))
  end.
Proof.
  intros Hn Hc Hw Hh request accepted. destruct v; simpl in *.
  - intros w h. unfold accepted, request.
    unfold V3.normalize in *. rewrite V3_validate_dimensions.
    destruct (V3.validate params); [discriminate Hn|]. simpl.
    eexists. split; [reflexivity|].
    unfold V3.build_input. read_fields. rewrite Hc. simpl.
    split; destruct (get params "seed"); reflexivity.
  - assert (Hv : V4.validate params = inr tt).
    { unfold V4.normalize in Hn.
      by destruct (V4.validate params) as [|[]]. }
    pose proof (λ w h, V4_validate_dimensions params w h Hc Hw Hh Hv) as Hreq.
    cbv zeta in Hreq.
    split; [|split].
    + intros w h Hout. apply (rejected_before_upstream SeedDream4).
      simpl. unfold V4.normalize, request. rewrite Hreq.
      by rewrite (range_check_out_of_range 1024 4096 w Hout).
    + intros w h Hpass Hout. apply (rejected_before_upstream SeedDream4).
      simpl. unfold V4.normalize, request. rewrite Hreq.
      rewrite (range_check_not_out_of_range 1024 4096 w Hpass).
      by rewrite (range_check_out_of_range 1024 4096 h Hout).
    + intros w h Hin_w Hin_h. unfold accepted, request. simpl.
      unfold V4.normalize. rewrite Hreq.
      rewrite (range_check_not_out_of_range 1024 4096 w),
        (range_check_not_out_of_range 1024 4096 h)
        by by apply in_range_not_out.
      simpl. eexists. split; [reflexivity|].
      unfold V4.build_input. read_fields. rewrite Hc. simpl.
      by rewrite !(or_else_in_range 1024 4096) by (done || lra).
Qed.

(** What the 4.0 server does with a numeric [max_images] [q] put into
    a request that is otherwise accepted: it throws exactly when [q] is
    non-zero and outside 1..15, and a zero is replaced by the default. *)
Lemma V4_validate_max_images params q :
  V4.validate params = inr tt →
  V4.validate (<["max_images" := Num (Finite q)]> params) =
    throw_if (negb (Qeq_bool q 0)
              && (negb (Qle_bool 1 q) || negb (Qle_bool q 15)))
             InvalidMaxImages.
Proof.
  intros Hv. unfold V4.validate in *. read_request.
  rewrite range_check_number, throw_when_inr.
  do 4 pass_check Hv.
  destruct (and_b (truthy (get params "max_images")) _) as [?|[|]];
    [done..|]. simpl in Hv. rewrite Hv.
  by destruct (negb (Qeq_bool q 0) && _).
Qed.

Lemma max_images_check params input q :
  V4.normalize params = inr input →
  let request : gmap string value :=
    <["max_images" := Num (Finite q)]> params in
  (V4.normalize request = inl InvalidMaxImages
   ↔ ¬ (q == 0)%Q ∧ ¬ (1 <= q <= 15)%Q)
  ∧ ((q == 0)%Q →
     ∃ input', V4.normalize request = inr input'
               ∧ prop "max_images" input' = int 1).
Proof.
  intros Hn request.
  assert (Hv : V4.validate params = inr tt).
  { unfold V4.normalize in Hn. by destruct (V4.validate params) as [|[]]. }
  unfold V4.normalize, request. rewrite (V4_validate_max_images params q Hv).
  destruct (Qeq_bool q 0) eqn:Ez; simpl.
  - apply Qeq_bool_iff in Ez. split.
    + split; [discriminate | tauto].
    + intros _. eexists. split; [reflexivity|].
      unfold V4.build_input. read_request.
      assert (Hor : or_else (Num (Finite q)) (int 1) = int 1).
      { unfold or_else. simpl.
        by rewrite (proj2 (Qeq_bool_iff q 0) Ez). }
      rewrite Hor.
      destruct (strict_eq_str (get params "size") "custom");
        rewrite ?prop_set_prop_ne by reflexivity; reflexivity.
  - assert (Hq : ¬ (q == 0)%Q).
    { intros E. apply Qeq_bool_iff in E. congruence. }
    split; [|tauto].
    destruct (negb (Qle_bool 1 q) || negb (Qle_bool q 15)) eqn:Eb; simpl.
    + split; [|done]. intros _. split; [exact Hq|].
      intros Hin. rewrite (in_bound _ _ _ Hin) in Eb. discriminate Eb.
    + split; [discriminate|]. intros [_ Hout].
      rewrite (out_of_bound _ _ _ Hout) in Eb. discriminate Eb.
Qed.

(** C2.  The 4.0 server at the four boundary values of [max_images]:
    1 and 15 are accepted and 16 is rejected, but 0 is accepted too,
    and the payload then carries the default 1. *)
Theorem max_images_boundary :
  let request n : gmap string value :=
    {[ "prompt" := Str "x"; "max_images" := int n ]} in
  let payload n : object :=
    [ ("prompt", Str "x"); ("size", Str "2K"); ("max_images", int n);
      ("image_input", Arr []); ("aspect_ratio", Str "match_input_image");
      ("sequential_image_generation", Str "disabled") ] in
  V4.normalize (request 0%Z) = inr (payload 1%Z)
  ∧ V4.normalize (request 1%Z) = inr (payload 1%Z)
  ∧ V4.normalize (request 15%Z) = inr (payload 15%Z)
  ∧ V4.normalize (request 16%Z) = inl InvalidMaxImages.
Proof. repeat split; vm_compute; reflexivity. Qed.

(** With a prompt that passes, and an [aspect_ratio] and a [size] that
    are both given (truthy) and both outside the sets of the server,
    the aspect-ratio error is thrown on the 3.0 server and the size
    error on the 4.0 server. *)
Lemma both_invalid v params :
  (∃ s, get params "prompt" = Str s ∧ s ≠ "") →
  truthy (get params "aspect_ratio") = true →
  includes (VALID_ASPECT_RATIOS v) (get params "aspect_ratio") = false →
  truthy (get params "size") = true →
  includes (VALID_SIZES v) (get params "size") = false →
  normalize v params =
    inl match v with
        | SeedDream3 => InvalidAspectRatio
        | SeedDream4 => InvalidSize
        end.
Proof.
  intros (s & Hp & Hs) Ha Hna Hz Hnz.
  apply String.eqb_neq in Hs.
  destruct v; simpl in *; unfold V3.normalize, V3.validate, V4.normalize,
    V4.validate; rewrite Hp, Ha, Hna; simpl; rewrite Hs; simpl;
    rewrite ?Hz, ?Hnz; reflexivity.
Qed.

(** C3 (amended).  Validation short-circuits in the order in which each
    server writes its checks: prompt, aspect ratio, size on the 3.0
    server; prompt, size, aspect ratio, sequential mode, [max_images],
    [image_input], width, height on the 4.0 server.  Whenever the
    condition of a check holds and the conditions of all the checks
    before it in that order are false, normalization throws the error
    of that check, whatever the later checks would say, and the handler
    answers before any call to the outside; when no condition holds the
    request is accepted.  So with a prompt that passes, and an
    [aspect_ratio] and a [size] that are both given (truthy) and both
    outside the sets of the server, the 3.0 server throws the
    aspect-ratio error and the 4.0 server the size error. *)
Theorem first_failure_wins v params :
  (∀ before e after,
     checks v = (before ++ e :: after)%list →
     Forall (λ e', condition v e' params = inr false) before →
     condition v e params = inr true →
     fails_before_upstream v params e)
  ∧ (Forall (λ e, condition v e params = inr false) (checks v) →
     normalize v params = inr (build_input v params))
  ∧ ((∃ s, get params "prompt" = Str s ∧ s ≠ "") →
     truthy (get params "aspect_ratio") = true →
     includes (VALID_ASPECT_RATIOS v) (get params "aspect_ratio") = false →
     truthy (get params "size") = true →
     includes (VALID_SIZES v) (get params "size") = false →
     normalize v params =
       inl match v with
           | SeedDream3 => InvalidAspectRatio
           | SeedDream4 => InvalidSize
           end).
Proof.
  split; [|split].
  - intros before e after Horder Hpass Hfire.
    apply rejected_before_upstream.
    rewrite normalize_checks, Horder.
    by rewrite (first_failure_fires before e after _ Hpass Hfire).
  - intros Hpass. rewrite normalize_checks.
    apply first_failure_passes in Hpass. by rewrite Hpass.
  - apply both_invalid.
Qed.

(** C4 (amended).  In the payload of an accepted request: on the 3.0
    server [size] is present exactly when [aspect_ratio] is not
    ["custom"], and [width] and [height] exactly when it is; on the 4.0
    server [size] and [aspect_ratio] are always present, and [width]
    and [height] are present exactly when [size] is ["custom"].  The
    mode read from the payload is the mode of the request. *)
Theorem payload_fields_by_mode v params input :
  normalize v params = inr input →
  match v with
  | SeedDream3 =>
      let custom := strict_eq_str (prop "aspect_ratio" input) "custom" in
      strict_eq_str (get params "aspect_ratio") "custom" = custom
      ∧ has_key "aspect_ratio" input = true
      ∧ has_key "size" input = negb custom
      ∧ has_key "width" input = custom
      ∧ has_key "height" input = custom
  | SeedDream4 =>
      let custom := strict_eq_str (prop "size" input) "custom" in
      strict_eq_str (get params "size") "custom" = custom
      ∧ has_key "size" input = true
      ∧ has_key "aspect_ratio" input = true
      ∧ has_key "width" input = custom
      ∧ has_key "height" input = custom
  end.
Proof.
  intros Hn. apply normalize_inr in Hn as ->. destruct v.
  - unfold V3.build_input.
    pose proof (custom_or_else (get params "aspect_ratio") "16:9" eq_refl)
      as Hc.
    destruct (strict_eq_str (get params "aspect_ratio") "custom") eqn:Ec;
      simpl negb; cbv iota;
      (destruct (get params "seed");
       rewrite ?has_key_set_prop, ?prop_set_prop_ne by reflexivity;
       simpl; rewrite Hc; done).
  - unfold V4.build_input.
    pose proof (custom_or_else (get params "size") "2K" eq_refl) as Hc.
    destruct (strict_eq_str (get params "size") "custom") eqn:Ec;
      rewrite ?has_key_set_prop, ?prop_set_prop_ne by reflexivity;
      simpl; rewrite Hc; done.
Qed.

(** C5.  When [prompt] is absent, not a string, or empty, normalization
    throws the prompt error on either server, and the handler returns
    an error response without any call to the outside, whatever the
    client handle and the world. *)
Theorem missing_prompt_rejected v (arguments : option (gmap string value)) :
  prompt_missing (default ∅ arguments) →
  normalize v (default ∅ arguments) = inl MissingPrompt
  ∧ ∀ replicate, ∃ r,
      handler v replicate arguments = Ret r
      ∧ isError r = true
      ∧ (is_Some replicate →
         content r =
           ErrorText (Thrown "Prompt is required and must be a string"))
      ∧ ∀ St (w : world St) s,
          calls (exec w (handler v replicate arguments) s) = [].
Proof.
  intros Hp. apply prompt_check_fires in Hp.
  assert (Hn : normalize v (default ∅ arguments) = inl MissingPrompt).
  { destruct v; simpl; unfold V3.normalize, V3.validate, V4.normalize,
      V4.validate; rewrite Hp; reflexivity. }
  split; [exact Hn|]. intros [c|].
  - destruct v; simpl in *; unfold V3.handler, V4.handler; rewrite Hn;
      (eexists; split; [reflexivity|]; repeat split; done).
  - destruct v; simpl; unfold V3.handler, V4.handler;
      (eexists; split; [reflexivity|]; repeat split; try done;
       intros [? [=]]).
Qed.

(** C6.  On the 3.0 server the request [{prompt: "a red fox"}]
    normalizes to the object with exactly the four fields [prompt],
    [aspect_ratio: "16:9"], [size: "regular"] and
    [guidance_scale: 2.5]; there is no [seed], [width] or [height]. *)
Theorem red_fox_payload :
  ∃ input,
    V3.normalize {[ "prompt" := Str "a red fox" ]} = inr input
    ∧ input ≡ₚ [ ("prompt", Str "a red fox");
                  ("aspect_ratio", Str "16:9");
                  ("size", Str "regular");
                  ("guidance_scale", Num (Finite (5 # 2))) ]
    ∧ has_key "seed" input = false
    ∧ has_key "width" input = false
    ∧ has_key "height" input = false.
Proof.
  eexists. split; [vm_compute; reflexivity|].
  split; [|done]. do 2 apply Permutation_skip. apply Permutation_swap.
Qed.

(** What a passed validation says about the request, check by check. *)
Lemma V4_validate_passed params :
  V4.validate params = inr tt →
  let field := get params in
  let range_check x lo hi := and_b (truthy x) (or_b (lt x lo) (gt x hi)) in
  (truthy (field "prompt") = true ∧ typeof (field "prompt") = "string")
  ∧ truthy (field "size") && negb (includes V4.VALID_SIZES (field "size"))
    = false
  ∧ truthy (field "aspect_ratio")
    && negb (includes V4.VALID_ASPECT_RATIOS (field "aspect_ratio")) = false
  ∧ truthy (field "sequential_image_generation")
    && negb (includes V4.VALID_SEQUENTIAL_MODES
                      (field "sequential_image_generation")) = false
  ∧ range_check (field "max_images") 1%Z 15%Z = inr false
  ∧ and_b (truthy (field "image_input"))
          (gt (get_length (field "image_input")) 10) = inr false
  ∧ (strict_eq_str (field "size") "custom" = true →
     range_check (field "width") 1024%Z 4096%Z = inr false
     ∧ range_check (field "height") 1024%Z 4096%Z = inr false).
Proof.
  unfold V4.validate. intros Hv. cbv zeta.
  destruct (negb (truthy (get params "prompt")) || _) eqn:E1;
    [discriminate Hv|].
  apply orb_false_iff in E1 as [Et Ety].
  apply negb_false_iff in Et. apply negb_false_iff, String.eqb_eq in Ety.
  destruct (truthy (get params "size") && _) eqn:E2; [discriminate Hv|].
  destruct (truthy (get params "aspect_ratio") && _) eqn:E3;
    [discriminate Hv|].
  destruct (truthy (get params "sequential_image_generation") && _) eqn:E4;
    [discriminate Hv|].
  destruct (and_b (truthy (get params "max_images")) _) as [?|[|]] eqn:E5;
    [discriminate Hv..|].
  destruct (and_b (truthy (get params "image_input")) _) as [?|[|]] eqn:E6;
    [discriminate Hv..|].
  simpl in Hv. repeat (split; [done|]). intros Hc. rewrite Hc in Hv.
  destruct (and_b (truthy (get params "width")) _) as [?|[|]] eqn:E7;
    [discriminate Hv..|].
  destruct (and_b (truthy (get params "height")) _) as [?|[|]] eqn:E8;
    [discriminate Hv..|].
  done.
Qed.

Lemma V3_validate_passed params :
  V3.validate params = inr tt →
  let field := get params in
  (truthy (field "prompt") = true ∧ typeof (field "prompt") = "string")
  ∧ truthy (field "aspect_ratio")
    && negb (includes V3.VALID_ASPECT_RATIOS (field "aspect_ratio")) = false
  ∧ truthy (field "size") && negb (includes V3.VALID_SIZES (field "size"))
    = false.
Proof.
  unfold V3.validate. intros Hv. cbv zeta.
  destruct (negb (truthy (get params "prompt")) || _) eqn:E1;
    [discriminate Hv|].
  apply orb_false_iff in E1 as [Et Ety].
  apply negb_false_iff in Et. apply negb_false_iff, String.eqb_eq in Ety.
  destruct (truthy (get params "aspect_ratio") && _) eqn:E2;
    [discriminate Hv|].
  destruct (truthy (get params "size") && _) eqn:E3; [discriminate Hv|].
  done.
Qed.

Lemma normalize_passed v params input :
  normalize v params = inr input →
  match v with
  | SeedDream3 =>
      V3.validate params = inr tt ∧ input = V3.build_input params
  | SeedDream4 =>
      V4.validate params = inr tt ∧ input = V4.build_input params
  end.
Proof.
  destruct v; simpl; unfold V3.normalize, V4.normalize;
    [destruct (V3.validate params) as [|[]]
    | destruct (V4.validate params) as [|[]]];
    simpl; intros [=]; done.
Qed.

Lemma nonempty_string a :
  truthy a = true → typeof a = "string" → ∃ s, a = Str s ∧ s ≠ "".
Proof.
  destruct a; try discriminate. simpl. intros Ht _. exists s.
  split; [done|]. by apply String.eqb_neq, negb_true_iff.
Qed.

Lemma enum_or_else set a d :
  truthy a && negb (includes set a) = false →
  includes set (Str d) = true →
  includes set (or_else a (Str d)) = true.
Proof.
  unfold or_else. destruct (truthy a); [|done]. simpl.
  by intros ->%negb_false_iff.
Qed.

(** The fields of the two payloads, read back. *)
Lemma V4_payload_field params k :
  String.eqb "width" k = false → String.eqb "height" k = false →
  prop k (V4.build_input params) =
    prop k [ ("prompt", get params "prompt");
             ("size", or_else (get params "size") (Str "2K"));
             ("max_images", or_else (get params "max_images") (int 1));
             ("image_input", or_else (get params "image_input") (Arr []));
             ("aspect_ratio",
               or_else (get params "aspect_ratio") (Str "match_input_image"));
             ("sequential_image_generation",
               or_else (get params "sequential_image_generation")
                       (Str "disabled")) ].
Proof.
  intros Hw Hh. unfold V4.build_input.
  destruct (strict_eq_str (get params "size") "custom"); [|done].
  by rewrite !prop_set_prop_ne.
Qed.

Lemma V3_payload_field params k :
  String.eqb "size" k = false → String.eqb "width" k = false →
  String.eqb "height" k = false → String.eqb "seed" k = false →
  prop k (V3.build_input params) =
    prop k [ ("prompt", get params "prompt");
             ("aspect_ratio", or_else (get params "aspect_ratio") (Str "16:9"));
             ("guidance_scale",
               or_else (get params "guidance_scale") (Num (Finite (5 # 2)))) ].
Proof.
  intros Hs Hw Hh Hd. unfold V3.build_input.
  destruct (strict_eq_str (get params "aspect_ratio") "custom"); simpl negb;
    cbv iota; destruct (get params "seed");
    by rewrite ?prop_set_prop_ne.
Qed.

Lemma V3_payload_size params :
  has_key "size" (V3.build_input params) = true →
  prop "size" (V3.build_input params) =
    or_else (get params "size") (Str "regular").
Proof.
  unfold V3.build_input.
  destruct (strict_eq_str (get params "aspect_ratio") "custom"); simpl negb;
    cbv iota; destruct (get params "seed");
    rewrite ?has_key_set_prop, ?prop_set_prop_ne by reflexivity;
    simpl; done.
Qed.


(** ** Text conversions after validation *)

Lemma interpolate_string s : interpolate (Str s) = inr s.
Proof. reflexivity. Qed.

Lemma interpolate_number n : interpolate (Num n) = inr (NumberToString n).
Proof. reflexivity. Qed.

Lemma interpolate_inr v s : ToString v = Some s → interpolate v = inr s.
Proof. unfold interpolate. by intros ->. Qed.


Lemma printable_interpolate v :
  printable v → ∃ s, interpolate v = inr s.
Proof. intros [s Hs]. exists s. by apply interpolate_inr. Qed.

Lemma unprintable_interpolate v :
  ¬ printable v → interpolate v = inl (JsError (ConversionErrorMessage v)).
Proof.
  unfold printable, interpolate. destruct (ToString v); [|done].
  intros Hv. destruct Hv. by eexists.
Qed.

Lemma unprintable_truthy v : ¬ printable v → truthy v = true.
Proof.
  unfold printable. destruct v; simpl; try done; intros Hv; destruct Hv;
    by eexists.
Qed.

Lemma includes_string set a :
  includes set a = true → ∃ s, a = Str s.
Proof. destruct a; try done. eauto. Qed.

(** A field that has passed a range check, or its numeric default,
    has a text. *)
Lemma range_checked_text a lo hi d :
  and_b (truthy a) (or_b (lt a lo) (gt a hi)) = inr false →
  ∃ s, interpolate (or_else a (int d)) = inr s.
Proof.
  unfold or_else. destruct (truthy a); [|by eauto]. simpl.
  destruct (lt a lo) as [|b] eqn:E; [done|]. intros _.
  apply lt_inr in E as [s Hs]. exists s. by apply interpolate_inr.
Qed.

Lemma length_checked_text a :
  and_b (truthy a) (gt (get_length a) 10) = inr false →
  ∃ s, interpolate (get_length (or_else a (Arr []))) = inr s.
Proof.
  unfold or_else. destruct (truthy a); [|by eauto]. simpl.
  destruct (gt (get_length a) 10) as [|b] eqn:E; [done|]. intros _.
  apply gt_inr in E as [s Hs]. exists s. by apply interpolate_inr.
Qed.

(** On the 4.0 server every interpolation of the success text has been
    through validation, so the text is always produced. *)
Lemma V4_success_returns params input total generationTime ds :
  V4.normalize params = inr input →
  ∃ rep,
    V4.success input total generationTime ds
      = inr (Response (SuccessText rep) false)
    ∧ V4.r_total rep = total
    ∧ V4.r_imageDetails rep = List.map V4.image_detail ds
    ∧ V4.r_successfulDownloads rep =
        length (List.filter (λ img, truthy (Str (V4.d_localPath img))) ds).
Proof.
  intros Hn. apply (normalize_passed SeedDream4) in Hn as [Hv ->].
  apply V4_validate_passed in Hv
    as ([Ht Hty] & Hsz & Har & Hseq & Hmax & Himg & Hdim).
  cbv zeta in *.
  destruct (nonempty_string _ Ht Hty) as (prompt & Hprompt & _).
  destruct (includes_string _ _
              (enum_or_else V4.VALID_SIZES _ "2K" Hsz eq_refl))
    as [size Hsize].
  destruct (includes_string _ _
              (enum_or_else V4.VALID_ASPECT_RATIOS _ "match_input_image"
                 Har eq_refl)) as [aspect_ratio Haspect].
  destruct (includes_string _ _
              (enum_or_else V4.VALID_SEQUENTIAL_MODES _ "disabled"
                 Hseq eq_refl)) as [sequential Hsequential].
  destruct (range_checked_text _ _ _ 1 Hmax) as [max_images Hmax_images].
  destruct (length_checked_text _ Himg) as [input_images Hinput_images].
  assert (Hdims : ∃ dimensions,
            (if strict_eq_str (prop "size" (V4.build_input params)) "custom"
             then width <~ interpolate (prop "width" (V4.build_input params)) ;;
                  height <~ interpolate
                              (prop "height" (V4.build_input params)) ;;
                  inr (Some (width, height))
             else inr None) = inr dimensions).
  { rewrite (V4_payload_field params "size") by reflexivity.
    cbn [prop String.eqb Ascii.eqb Bool.eqb].
    rewrite custom_or_else by reflexivity.
    destruct (strict_eq_str (get params "size") "custom") eqn:Ec;
      [|by eauto].
    destruct (Hdim eq_refl) as [Hw Hh].
    destruct (range_checked_text _ _ _ 2048 Hw) as [width Hwidth].
    destruct (range_checked_text _ _ _ 2048 Hh) as [height Hheight].
    unfold V4.build_input. rewrite Ec.
    cbn [set_prop prop String.eqb Ascii.eqb Bool.eqb].
    rewrite Hwidth. cbn [and_then]. rewrite Hheight. by eauto. }
  destruct Hdims as [dimensions Hdims].
  unfold V4.success. rewrite Hdims.
  rewrite !(V4_payload_field params) by reflexivity.
  cbn [prop String.eqb Ascii.eqb Bool.eqb].
  rewrite Hprompt, interpolate_string. cbn [and_then].
  rewrite Hsize, interpolate_string. cbn [and_then].
  rewrite Haspect, interpolate_string. cbn [and_then].
  rewrite Hmax_images. cbn [and_then].
  rewrite Hsequential, interpolate_string. cbn [and_then].
  rewrite Hinput_images. cbn [and_then].
  eexists. done.
Qed.

(** ** Runs of the handler *)

Lemma exec_bind {A B St} (w : world St) (p : prog A) (f : A → prog B) s :
  exec w (bind p f) s =
    let r := exec w p s in
    let r' := exec w (f (returned r)) (final r) in
    Result (returned r') (calls r ++ calls r') (final r').
Proof.
  revert s. induction p as [a|k IH|k IH|k IH|k IH|m i k IH|u fp k IH];
    intros s; simpl.
  - by destruct (exec w (f a) s).
  - destruct (w_now w s) as [t s']. apply IH.
  - destruct (w_iso w s) as [t s']. apply IH.
  - destruct (w_random w s) as [t s']. apply IH.
  - destruct (w_cwd w s) as [t s']. apply IH.
  - destruct (w_run w m i s) as [t s']. rewrite IH. reflexivity.
  - destruct (w_download w u fp s) as [t s']. rewrite IH. reflexivity.
Qed.

Lemma payloads_app cs1 cs2 :
  payloads (cs1 ++ cs2) = (payloads cs1 ++ payloads cs2)%list.
Proof.
  induction cs1 as [|[]]; simpl; [done| |done]. by f_equal.
Qed.

Lemma http_truthy u : startsWith u "http" = true → truthy (Str u) = true.
Proof. by destruct u. Qed.

Lemma path_join_truthy a b : truthy (Str (path_join a b)) = true.
Proof. by destruct a. Qed.

Lemma V4_filename_calls {St} (w : world St) prompt i ts s :
  calls (exec w (V4.generateImageFilename prompt i ts) s) = [].
Proof.
  unfold V4.generateImageFilename.
  destruct (truthy (Str ts)); simpl; [done|]. by destruct (w_iso w s).
Qed.

(** One download is one call, whose answer decides the result; the
    path it resolves with is never empty. *)
Lemma downloadImage_exec {St} (w : world St) url filename s :
  ∃ filePath ans,
    calls (exec w (downloadImage url filename) s)
      = [CallDownload url filePath ans]
    ∧ truthy (Str filePath) = true
    ∧ returned (exec w (downloadImage url filename) s)
        = match ans with
          | Fulfilled _ => Fulfilled filePath
          | Rejected e => Rejected e
          end.
Proof.
  unfold downloadImage. simpl. destruct (w_cwd w s) as [cwd s1].
  destruct (w_download w url _ s1) as [ans s2].
  eexists _, ans. simpl.
  split; [by destruct ans|]. split; [apply path_join_truthy|].
  by destruct ans.
Qed.

Lemma downloadImage_payloads {St} (w : world St) url filename s :
  payloads (calls (exec w (downloadImage url filename) s)) = [].
Proof.
  destruct (downloadImage_exec w url filename s) as (? & ? & -> & _).
  reflexivity.
Qed.

Lemma image_detail_saved u p i :
  truthy (Str p) = true →
  V4.image_detail (V4.Downloaded u p i) = SavedLine (i + 1) p u.
Proof. unfold V4.image_detail. simpl V4.d_localPath. by intros ->. Qed.

Lemma image_detail_failed u i :
  V4.image_detail (V4.Downloaded u "" i) = DownloadFailedLine (i + 1) u.
Proof. reflexivity. Qed.

(** One turn of the loop on a well-formed URL. *)
Lemma V4_download_loop_http prompt ts u rest i acc :
  startsWith u "http" = true →
  V4.download_loop prompt ts (UrlReturns (Str u) :: rest) i acc =
    (filename <- V4.generateImageFilename prompt i ts ;;
     r <- downloadImage u filename ;;
     match r with
     | Fulfilled localPath =>
         V4.download_loop prompt ts rest (S i)
           (acc ++ [V4.Downloaded u localPath i])%list
     | Rejected _ =>
         V4.download_loop prompt ts rest (S i)
           (acc ++ [V4.Downloaded u "" i])%list
     end).
Proof.
  intros Hu. cbn [V4.download_loop].
  by rewrite Hu, (http_truthy u Hu).
Qed.

(** The loop over well-formed URLs, from any index, accumulator and
    state: it never leaves by an exception, it attempts every URL in
    order, and each record it adds mirrors the answer to one download. *)
Lemma V4_download_loop_spec {St} (w : world St) prompt ts urls :
  Forall (λ u, startsWith u "http" = true) urls →
  ∀ i acc s,
    let r := exec w (V4.download_loop prompt ts
                       (List.map (λ u, UrlReturns (Str u)) urls) i acc) s in
    ∃ recs,
      returned r = inr (acc ++ recs)%list
      ∧ download_urls (calls r) = urls
      ∧ length recs = length urls
      ∧ List.map V4.image_detail recs = expected_lines i (calls r)
      ∧ length (List.filter (λ img, truthy (Str (V4.d_localPath img))) recs)
        = length (List.filter fulfilled (calls r)).
Proof.
  induction 1 as [|u urls Hu _ IH]; intros i acc s.
  - exists []. simpl. by rewrite app_nil_r.
  - cbn [List.map]. cbv zeta.
    rewrite V4_download_loop_http by done.
    rewrite exec_bind. cbv zeta.
    set (rf := exec w (V4.generateImageFilename prompt i ts) s).
    pose proof (V4_filename_calls w prompt i ts s) as Hf. fold rf in Hf.
    rewrite Hf, exec_bind. cbv zeta.
    destruct (downloadImage_exec w u (returned rf) (final rf))
      as (filePath & ans & Hc & Hp & Hr).
    set (rd := exec w (downloadImage u (returned rf)) (final rf)) in *.
    rewrite Hc, Hr. cbn [returned calls final app].
    destruct ans as [[]|e].
    + destruct (IH (S i) (acc ++ [V4.Downloaded u filePath i])%list
                  (final rd))
        as (recs & Hret & Hurls & Hlen & Hlines & Hcount).
      exists (V4.Downloaded u filePath i :: recs).
      rewrite Hret, <- app_assoc.
      cbn [List.map List.filter download_urls expected_lines
           fulfilled length app V4.d_localPath].
      rewrite (image_detail_saved u filePath i Hp), Hp.
      cbn [length]. rewrite Hurls, Hlines, Hcount, Hlen. done.
    + destruct (IH (S i) (acc ++ [V4.Downloaded u "" i])%list (final rd))
        as (recs & Hret & Hurls & Hlen & Hlines & Hcount).
      exists (V4.Downloaded u "" i :: recs).
      rewrite Hret, <- app_assoc.
      cbn [List.map List.filter download_urls expected_lines
           fulfilled length app V4.d_localPath].
      rewrite image_detail_failed. change (truthy (Str "")) with false.
      cbv iota. rewrite Hurls, Hlines, Hcount, Hlen. done.
Qed.

Lemma valid_url_http u :
  valid_url (Str u) = true → startsWith u "http" = true.
Proof. unfold valid_url. by intros [_ ?]%andb_true_iff. Qed.

(** One turn of the loop on an element that is passed over: the
    warning is worded, which converts the element. *)
Lemma V4_download_loop_skip prompt ts v rest i acc :
  valid_url v = false →
  V4.download_loop prompt ts (UrlReturns v :: rest) i acc =
    match interpolate v with
    | inl e => Ret (inl e)
    | inr _ => V4.download_loop prompt ts rest (S i) acc
    end.
Proof.
  intros Hv. destruct v; try reflexivity. cbn [V4.download_loop].
  unfold valid_url in Hv. by rewrite <- negb_andb, Hv.
Qed.

(** The loop sends nothing upstream, whatever the elements are. *)
Lemma V4_download_loop_payloads {St} (w : world St) prompt ts items :
  ∀ i acc s,
    payloads (calls (exec w (V4.download_loop prompt ts items i acc) s)) = [].
Proof.
  induction items as [|it items IH]; intros i acc s; [done|].
  destruct it as [v|e]; [|done].
  destruct (valid_url v) eqn:Ev; cycle 1.
  { rewrite V4_download_loop_skip by done.
    destruct (interpolate v); [done | apply IH]. }
  destruct v as [| | | |u| |]; try discriminate Ev.
  rewrite V4_download_loop_http by by apply valid_url_http.
  rewrite exec_bind. cbv zeta. cbn [calls].
  rewrite payloads_app, V4_filename_calls, exec_bind. cbv zeta. cbn [calls].
  rewrite payloads_app, downloadImage_payloads.
  destruct (returned (exec w (downloadImage _ _) _)); apply IH.
Qed.

Lemma V4_payload_sent {St} (w : world St) s c params input :
  V4.normalize params = inr input →
  payloads (calls (exec w (V4.handler (Some c) (Some params)) s)) = [input].
Proof.
  intros Hn. unfold V4.handler. simpl. rewrite Hn.
  unfold V4.generate. simpl.
  destruct (w_now w s) as [t0 s0].
  destruct (w_run w "bytedance/seedream-4" input s0) as [ans s1].
  destruct ans as [[out|e]|]; simpl; try done.
  destruct (w_now w s1) as [t1 s2].
  destruct (V4.as_array out) as [[|it items]|]; try done.
  cbn -[V4.download_loop].
  destruct (w_iso w s2) as [iso s3]. rewrite exec_bind. cbv zeta.
  cbn [calls]. rewrite payloads_app, V4_download_loop_payloads.
  destruct (returned (exec w (V4.download_loop _ _ _ _ _) _)); [done|].
  by destruct (V4.success _ _ _ _).
Qed.

Lemma V3_payload_sent {St} (w : world St) s c params input :
  V3.normalize params = inr input →
  payloads (calls (exec w (V3.handler (Some c) (Some params)) s)) = [input].
Proof.
  intros Hn. unfold V3.handler. simpl. rewrite Hn.
  unfold V3.generate. simpl.
  destruct (w_now w s) as [t0 s0].
  destruct (w_run w "bytedance/seedream-3" input s0) as [ans s1].
  destruct ans as [[out|e]|]; simpl; try done.
  destruct (w_now w s1) as [t1 s2].
  destruct (negb (V3.output_truthy out)); [done|].
  destruct out as [v|]; [|done]. destruct v; try done.
  rename s3 into url.
  destruct (negb (startsWith url "http")); [done|].
  destruct (truthy (prop "seed" input)); simpl.
  - destruct (w_iso w s2) as [iso s4]. simpl.
    destruct (interpolate (prop "seed" input)) as [|seed]; simpl; [done|].
    destruct (w_cwd w s4) as [cwd s5].
    destruct (w_download w url _ s5) as [[[]|e] s6]; simpl;
      repeat destruct (V3.success _ _ _ _); reflexivity.
  - destruct (w_random w s2) as [rnd s4].
    destruct (w_iso w s4) as [iso s5]. simpl.
    destruct (w_cwd w s5) as [cwd s6].
    destruct (w_download w url _ s6) as [[[]|e] s7]; simpl;
      repeat destruct (V3.success _ _ _ _); reflexivity.
Qed.

(** C7.  On the 4.0 server, when the value resolved upstream is an
    empty array or no array at all, the call fails with the
    empty-output error, flagged as an error, and the one call made to
    the outside is the upstream one: no download is attempted. *)
Theorem empty_output_fails params input c out St (w : world St) s :
  V4.normalize params = inr input →
  empty_or_not_array out →
  (w_run w "bytedance/seedream-4" input (w_now w s).2).1
    = Settled (Fulfilled out) →
  let r := exec w (V4.handler (Some c) (Some params)) s in
  returned r =
    Response (ErrorText (FailedToGenerate V4.EMPTY_OUTPUT None)) true
  ∧ calls r =
      [CallRun "bytedance/seedream-4" input (Settled (Fulfilled out))]
  ∧ download_urls (calls r) = [].
Proof.
  intros Hn Hout Hrun. unfold V4.handler. simpl. rewrite Hn.
  unfold V4.generate. simpl.
  destruct (w_now w s) as [t0 s0]. simpl in Hrun.
  destruct (w_run w "bytedance/seedream-4" input s0) as [ans s1].
  simpl in Hrun. subst ans. simpl.
  destruct (w_now w s1) as [t1 s2].
  assert (Ha : V4.as_array out = None ∨ V4.as_array out = Some []).
  { destruct Hout as [-> | (v & -> & [-> | Hv])]; simpl; auto.
    destruct v; auto. by destruct (Hv xs). }
  destruct Ha as [-> | ->]; simpl; done.
Qed.

(** C8.  On the 4.0 server, when upstream resolves a non-empty array
    of well-formed URLs, then whatever the answers to the downloads
    are: the call reports success; every URL is attempted, one after
    the other in the order of the array; the summary has one line per
    image, a saved path where the download was fulfilled and a failure
    note where it was rejected; and the count of downloaded images is
    the number of fulfilled downloads. *)
Theorem downloads_independent params input c (urls : list string)
    St (w : world St) s :
  V4.normalize params = inr input →
  urls ≠ [] →
  Forall (λ u, startsWith u "http" = true) urls →
  (w_run w "bytedance/seedream-4" input (w_now w s).2).1
    = Settled (Fulfilled (Files (List.map (λ u, UrlReturns (Str u)) urls))) →
  let r := exec w (V4.handler (Some c) (Some params)) s in
  isError (returned r) = false
  ∧ download_urls (calls r) = urls
  ∧ ∃ rep,
      content (returned r) = SuccessText rep
      ∧ V4.r_total rep = length urls
      ∧ V4.r_imageDetails rep = expected_lines 0 (calls r)
      ∧ length (V4.r_imageDetails rep) = length urls
      ∧ V4.r_successfulDownloads rep
        = length (List.filter fulfilled (calls r)).
Proof.
  intros Hn Hne Hhttp Hrun. unfold V4.handler. simpl. rewrite Hn.
  unfold V4.generate. simpl.
  destruct (w_now w s) as [t0 s0]. simpl in Hrun.
  destruct (w_run w "bytedance/seedream-4" input s0) as [ans s1].
  simpl in Hrun. subst ans. simpl.
  destruct (w_now w s1) as [t1 s2].
  destruct (List.map (λ u, UrlReturns (Str u)) urls) as [|it items] eqn:Eitems.
  { by destruct urls. }
  cbn -[V4.download_loop].
  destruct (w_iso w s2) as [iso s3]. rewrite exec_bind. cbv zeta.
  rewrite <- Eitems.
  destruct (V4_download_loop_spec w
              (string_of (get (default ∅ (Some params)) "prompt"))
              (dash_time iso) urls Hhttp 0 [] s3)
    as (recs & Hret & Hurls & Hlen & Hlines & Hcount).
  simpl in Hret. rewrite Hret.
  destruct (V4_success_returns params input (S (length items)) (t1 - t0)
              recs Hn) as (rep & Hrep & Htotal & Hdetails & Hdownloads).
  cbn [app length]. rewrite Hrep. simpl. rewrite app_nil_r.
  split; [done|]. split; [exact Hurls|].
  exists rep. split; [reflexivity|].
  rewrite Htotal, Hdetails, Hdownloads.
  split.
  { by rewrite <- (length_map (λ u, UrlReturns (Str u)) urls), Eitems. }
  split; [exact Hlines|].
  split; [by rewrite length_map|exact Hcount].
Qed.

(** C9.  The payload of an accepted request is a function of the
    request alone: in any two runs of the handler, in whatever worlds
    and states, exactly one payload is sent upstream and it is the
    normalized one both times.  A request without [seed] gets a
    payload without [seed]. *)
Theorem normalization_deterministic v params input c :
  normalize v params = inr input →
  (∀ St1 (w1 : world St1) s1 St2 (w2 : world St2) s2,
     payloads (calls (exec w1 (handler v (Some c) (Some params)) s1))
       = [input]
     ∧ payloads (calls (exec w2 (handler v (Some c) (Some params)) s2))
       = [input])
  ∧ (get params "seed" = Undefined → has_key "seed" input = false).
Proof.
  intros Hn. split.
  - intros. destruct v; split;
      first [by apply V3_payload_sent | by apply V4_payload_sent].
  - intros Hseed. destruct v; simpl in Hn.
    + unfold V3.normalize in Hn.
      destruct (V3.validate params); [done|]. simpl in Hn.
      injection Hn as <-. unfold V3.build_input. rewrite Hseed.
      destruct (strict_eq_str (get params "aspect_ratio") "custom");
        reflexivity.
    + unfold V4.normalize in Hn.
      destruct (V4.validate params); [done|]. simpl in Hn.
      injection Hn as <-. unfold V4.build_input.
      destruct (strict_eq_str (get params "size") "custom"); reflexivity.
Qed.

(** C10.  Without a token (unset or empty) there is no client, and
    then every [generate_image] call, whatever its arguments, returns
    the fixed configuration error, flagged as an error, without
    validating anything and without any call to the outside. *)
Theorem credential_check_first v (arguments : option (gmap string value)) :
  init_replicate None = None
  ∧ init_replicate (Some "") = None
  ∧ call_tool v None "generate_image" arguments =
      Ret (inr (Response (ConfigErrorText CONFIG_ERROR_TEXT) true))
  ∧ handler v None arguments =
      Ret (Response (ConfigErrorText CONFIG_ERROR_TEXT) true)
  ∧ ∀ St (w : world St) s,
      let r := exec w (handler v None arguments) s in
      calls r = []
      ∧ isError (returned r) = true
      ∧ content (returned r) = ConfigErrorText CONFIG_ERROR_TEXT.
Proof. destruct v; repeat split. Qed.

End Properties.

(** * The properties at concrete requests *)

(** The 3.0 server accepts [{prompt: "x", aspect_ratio: "custom",
    width: 100}] and sends the width on. *)
Lemma v3_small_width_accepted :
  let request : gmap string value :=
    {[ "prompt" := Str "x"; "aspect_ratio" := Str "custom";
       "width" := int 100 ]} in
  normalize SeedDream3 request =
    inr [ ("prompt", Str "x"); ("aspect_ratio", Str "custom");
          ("guidance_scale", Num (Finite (5 # 2)));
          ("width", int 100); ("height", int 2048) ]
  ∧ ¬ ∃ d, normalize SeedDream3 request = inl (InvalidDimensions d).
Proof.
  split; [vm_compute; reflexivity|]. intros [d Hd]. vm_compute in Hd.
  discriminate Hd.
Qed.

(** The 4.0 server at the bounds of a custom dimension, and at 0. *)
Example custom_dimension_bounds :
  let request (k : string) (n : Z) : gmap string value :=
    {[ "prompt" := Str "x"; "size" := Str "custom"; k := int n ]} in
  let accepted (r : throws object) := match r with inr _ => True | _ => False end in
  accepted (V4.normalize (request "width" 1024%Z))
  ∧ accepted (V4.normalize (request "width" 4096%Z))
  ∧ accepted (V4.normalize (request "height" 1024%Z))
  ∧ accepted (V4.normalize (request "height" 4096%Z))
  ∧ V4.normalize (request "width" 1023%Z) = inl (InvalidDimensions Width)
  ∧ V4.normalize (request "width" 4097%Z) = inl (InvalidDimensions Width)
  ∧ V4.normalize (request "height" 1023%Z) = inl (InvalidDimensions Height)
  ∧ V4.normalize (request "height" 4097%Z) = inl (InvalidDimensions Height)
  ∧ accepted (V4.normalize (request "width" 0%Z)).
Proof. vm_compute. tauto. Qed.

Lemma custom_dimensions_witness :
  let params : gmap string value :=
    {[ "prompt" := Str "x"; "size" := Str "custom" ]} in
  (∃ input, normalize SeedDream4 params = inr input)
  ∧ fails_before_upstream SeedDream4 (<["width" := int 100]> params)
                          (InvalidDimensions Width)
  ∧ fails_before_upstream SeedDream4
      (<["width" := int 0]> (<["height" := int 99999]> params))
      (InvalidDimensions Height)
  ∧ ∃ input, normalize SeedDream4 (<["height" := int 4096]> params)
             = inr input
             ∧ prop "width" input = int 2048
             ∧ prop "height" input = int 4096.
Proof.
  intros params.
  assert (Hn : normalize SeedDream4 params = inr (V4.build_input params)).
  { vm_compute. reflexivity. }
  assert (Hc : get params (custom_axis SeedDream4) = Str "custom").
  { reflexivity. }
  assert (Hw : params !! "width" = None). { reflexivity. }
  assert (Hh : params !! "height" = None). { reflexivity. }
  split; [eexists; exact Hn|].
  destruct (custom_dimensions SeedDream4 params _ Hn Hc Hw Hh)
    as (Hwidth & Hheight & Haccepted).
  split; [|split].
  - apply (Hwidth (Some 100%Q) None). split.
    + intros E. discriminate E.
    + intros [Hlo _]. apply Hlo. reflexivity.
  - apply (Hheight (Some 0%Q) (Some 99999%Q)).
    + intros [Hnz _]. apply Hnz. reflexivity.
    + split.
      * intros E. discriminate E.
      * intros [_ Hhi]. apply Hhi. reflexivity.
  - apply (Haccepted None (Some 4096%Q)).
    + exact I.
    + split; intros E; discriminate E.
Defined.

(** The 4.0 server on an [aspect_ratio] and a [size] that are both
    invalid: the size error, not the aspect-ratio error. *)
Lemma v4_size_checked_before_aspect_ratio :
  let request : gmap string value :=
    {[ "prompt" := Str "x"; "aspect_ratio" := Str "5:4";
       "size" := Str "8K" ]} in
  includes (VALID_ASPECT_RATIOS SeedDream4) (get request "aspect_ratio") = false
  ∧ includes (VALID_SIZES SeedDream4) (get request "size") = false
  ∧ normalize SeedDream4 request = inl InvalidSize
  ∧ normalize SeedDream4 request ≠ inl InvalidAspectRatio.
Proof.
  repeat split; try (vm_compute; reflexivity).
  vm_compute. discriminate.
Qed.

(** The whole order of the 4.0 server, one fault mended at a time: a
    request faulty in every checked field is answered with the first
    error, and mending the field of each error in turn brings up the
    next one. *)
Example V4_validation_ladder :
  let r0 : gmap string value :=
    {[ "prompt" := int 42; "size" := Str "8K"; "aspect_ratio" := Str "5:4";
       "sequential_image_generation" := Str "maybe";
       "max_images" := int 99;
       "image_input" := Arr (replicate 11 (Str "https://example.com/a.png"));
       "width" := int 1; "height" := int 1 ]} in
  let r1 := <["prompt" := Str "x"]> r0 in
  let r2 := <["size" := Str "custom"]> r1 in
  let r3 := <["aspect_ratio" := Str "16:9"]> r2 in
  let r4 := <["sequential_image_generation" := Str "auto"]> r3 in
  let r5 := <["max_images" := int 15]> r4 in
  let r6 := <["image_input" := Arr []]> r5 in
  let r7 := <["width" := int 1024]> r6 in
  let r8 := <["height" := int 4096]> r7 in
  normalize SeedDream4 r0 = inl MissingPrompt
  ∧ normalize SeedDream4 r1 = inl InvalidSize
  ∧ normalize SeedDream4 r2 = inl InvalidAspectRatio
  ∧ normalize SeedDream4 r3 = inl InvalidSequentialMode
  ∧ normalize SeedDream4 r4 = inl InvalidMaxImages
  ∧ normalize SeedDream4 r5 = inl TooManyInputImages
  ∧ normalize SeedDream4 r6 = inl (InvalidDimensions Width)
  ∧ normalize SeedDream4 r7 = inl (InvalidDimensions Height)
  ∧ normalize SeedDream4 r8 = inr (V4.build_input r8).
Proof. repeat split; vm_compute; reflexivity. Qed.

(** The same for the 3.0 server. *)
Example V3_validation_ladder :
  let r0 : gmap string value :=
    {[ "prompt" := int 42; "aspect_ratio" := Str "5:4";
       "size" := Str "huge" ]} in
  let r1 := <["prompt" := Str "x"]> r0 in
  let r2 := <["aspect_ratio" := Str "16:9"]> r1 in
  let r3 := <["size" := Str "big"]> r2 in
  normalize SeedDream3 r0 = inl MissingPrompt
  ∧ normalize SeedDream3 r1 = inl InvalidAspectRatio
  ∧ normalize SeedDream3 r2 = inl InvalidSize
  ∧ normalize SeedDream3 r3 = inr (V3.build_input r3).
Proof. repeat split; vm_compute; reflexivity. Qed.

(** On the 4.0 server a request with too many images asked for, too
    many input images and a width that is too small is answered with
    the first of the three errors; on the 3.0 server a request with an
    invalid aspect ratio and an invalid size is answered with the
    aspect-ratio error. *)
Lemma first_failure_wins_witness :
  let request4 : gmap string value :=
    {[ "prompt" := Str "x"; "size" := Str "custom"; "width" := int 1;
       "max_images" := int 99;
       "image_input" := Arr (replicate 11 (Str "https://example.com/a.png")) ]} in
  let request3 : gmap string value :=
    {[ "prompt" := Str "x"; "aspect_ratio" := Str "5:4";
       "size" := Str "huge" ]} in
  condition SeedDream4 TooManyInputImages request4 = inr true
  ∧ condition SeedDream4 (InvalidDimensions Width) request4 = inr true
  ∧ fails_before_upstream SeedDream4 request4 InvalidMaxImages
  ∧ normalize SeedDream3 request3 = inl InvalidAspectRatio.
Proof.
  intros request4 request3.
  split; [vm_compute; reflexivity|]. split; [vm_compute; reflexivity|].
  split.
  - destruct (first_failure_wins SeedDream4 request4) as (Hfirst & _ & _).
    apply (Hfirst [MissingPrompt; InvalidSize; InvalidAspectRatio;
                   InvalidSequentialMode]
                  InvalidMaxImages
                  [TooManyInputImages; InvalidDimensions Width;
                   InvalidDimensions Height]).
    + reflexivity.
    + repeat (constructor; [vm_compute; reflexivity|]). constructor.
    + vm_compute. reflexivity.
  - destruct (first_failure_wins SeedDream3 request3) as (_ & _ & Hboth).
    apply Hboth.
    + exists "x". split; [reflexivity | discriminate].
    + reflexivity.
    + reflexivity.
    + reflexivity.
    + reflexivity.
Defined.

(** The 4.0 server sends [size: "custom"] and the named aspect ratio
    next to the pixel dimensions. *)
Lemma v4_custom_payload_names_aspect_ratio :
  let request : gmap string value :=
    {[ "prompt" := Str "x"; "size" := Str "custom";
       "aspect_ratio" := Str "16:9";
       "width" := int 1024; "height" := int 1536 ]} in
  normalize SeedDream4 request =
    inr [ ("prompt", Str "x"); ("size", Str "custom");
          ("max_images", int 1); ("image_input", Arr []);
          ("aspect_ratio", Str "16:9");
          ("sequential_image_generation", Str "disabled");
          ("width", int 1024); ("height", int 1536) ].
Proof. vm_compute. reflexivity. Qed.

Lemma payload_fields_by_mode_witness :
  let request3 : gmap string value :=
    {[ "prompt" := Str "x"; "aspect_ratio" := Str "custom";
       "size" := Str "big"; "width" := int 1024 ]} in
  let input3 := V3.build_input request3 in
  let request4 : gmap string value :=
    {[ "prompt" := Str "x"; "size" := Str "custom"; "width" := int 1024 ]} in
  let input4 := V4.build_input request4 in
  (normalize SeedDream3 request3 = inr input3
   ∧ has_key "size" input3 = false
   ∧ has_key "width" input3 = true
   ∧ has_key "height" input3 = true)
  ∧ (normalize SeedDream4 request4 = inr input4
     ∧ has_key "size" input4 = true
     ∧ has_key "aspect_ratio" input4 = true
     ∧ has_key "width" input4 = true
     ∧ has_key "height" input4 = true).
Proof.
  intros request3 input3 request4 input4.
  assert (Hn3 : normalize SeedDream3 request3 = inr input3).
  { vm_compute. reflexivity. }
  assert (Hn4 : normalize SeedDream4 request4 = inr input4).
  { vm_compute. reflexivity. }
  split.
  - split; [exact Hn3|].
    destruct (payload_fields_by_mode SeedDream3 request3 input3 Hn3)
      as (_ & _ & Hsize & Hwidth & Hheight).
    split; [exact Hsize|]. split; [exact Hwidth | exact Hheight].
  - split; [exact Hn4|].
    destruct (payload_fields_by_mode SeedDream4 request4 input4 Hn4)
      as (_ & Hsize & Haspect & Hwidth & Hheight).
    split; [exact Hsize|]. split; [exact Haspect|].
    split; [exact Hwidth | exact Hheight].
Defined.

Lemma missing_prompt_rejected_witness :
  let arguments : option (gmap string value) :=
    Some {[ "prompt" := int 42; "size" := Str "2K" ]} in
  prompt_missing (default ∅ arguments)
  ∧ normalize SeedDream4 (default ∅ arguments) = inl MissingPrompt
  ∧ ∀ St (w : world St) s,
      calls (exec w (handler SeedDream4 (Some token_client) arguments) s) = [].
Proof.
  intros arguments.
  assert (Hp : prompt_missing (default ∅ arguments)).
  { right. left. exists (int 42). split; [reflexivity | discriminate]. }
  split; [exact Hp|].
  destruct (missing_prompt_rejected SeedDream4 arguments Hp) as [Hn Hh].
  split; [exact Hn|].
  destruct (Hh (Some token_client)) as (r & _ & _ & _ & Hcalls).
  exact Hcalls.
Defined.

Lemma empty_output_fails_witness :
  let params : gmap string value := {[ "prompt" := Str "a red fox" ]} in
  let w := example_world (Files []) (λ _, false) in
  let r := exec w (V4.handler (Some token_client) (Some params)) (0, 0) in
  returned r =
    Response (ErrorText (FailedToGenerate V4.EMPTY_OUTPUT None)) true
  ∧ download_urls (calls r) = [].
Proof.
  intros params w r.
  destruct (empty_output_fails params (V4.build_input params) token_client
              (Files []) _ w (0, 0)) as (Hret & _ & Hdl).
  - vm_compute. reflexivity.
  - left. reflexivity.
  - reflexivity.
  - split; [exact Hret | exact Hdl].
Defined.

(** Three URLs, the second download fails: two saved paths, one failure
    note, and the call reports success. *)
Lemma downloads_independent_witness :
  let params : gmap string value := {[ "prompt" := Str "A red Fox!" ]} in
  let out := Files (List.map (λ u, UrlReturns (Str u)) three_urls) in
  let w := example_world out (λ n, Nat.eqb n 1) in
  let r := exec w (V4.handler (Some token_client) (Some params)) (0, 0) in
  isError (returned r) = false
  ∧ download_urls (calls r) = three_urls
  ∧ ∃ rep,
      content (returned r) = SuccessText rep
      ∧ V4.r_imageDetails rep =
          [ SavedLine 1
              "/srv/mcp/images/seedream4_a_red_fox_0_2026-11-03T03-09-00-000Z.jpg"
              "https://replicate.delivery/a.jpg";
            DownloadFailedLine 2 "https://replicate.delivery/b.jpg";
            SavedLine 3
              "/srv/mcp/images/seedream4_a_red_fox_2_2026-11-03T03-09-00-000Z.jpg"
              "https://replicate.delivery/c.jpg" ]
      ∧ V4.r_successfulDownloads rep = 2.
Proof.
  intros params out w r.
  destruct (downloads_independent params (V4.build_input params) token_client
              three_urls _ w (0, 0))
    as (Herr & Hurls & rep & Hrep & _ & Hlines & _ & Hcount).
  - vm_compute. reflexivity.
  - discriminate.
  - repeat constructor.
  - reflexivity.
  - split; [exact Herr|]. split; [exact Hurls|].
    exists rep. split; [exact Hrep|]. split.
    + etransitivity; [exact Hlines|]. vm_compute. reflexivity.
    + etransitivity; [exact Hcount|]. vm_compute. reflexivity.
Defined.

Lemma normalization_deterministic_witness :
  let params : gmap string value := {[ "prompt" := Str "a red fox" ]} in
  let input := V3.build_input params in
  let w1 := example_world (Plain (Str "https://replicate.delivery/a.png"))
                          (λ _, false) in
  let w2 := example_world (Plain Null) (λ _, true) in
  normalize SeedDream3 params = inr input
  ∧ payloads (calls (exec w1 (handler SeedDream3 (Some token_client)
                                       (Some params)) (0, 0))) = [input]
  ∧ payloads (calls (exec w2 (handler SeedDream3 (Some token_client)
                                       (Some params)) (7, 3))) = [input]
  ∧ has_key "seed" input = false.
Proof.
  intros params input w1 w2.
  assert (Hn : normalize SeedDream3 params = inr input).
  { vm_compute. reflexivity. }
  split; [exact Hn|].
  destruct (normalization_deterministic SeedDream3 params input token_client Hn)
    as [Hruns Hseed].
  destruct (Hruns _ w1 (0, 0) _ w2 (7, 3)) as [H1 H2].
  split; [exact H1|]. split; [exact H2|].
  apply Hseed. reflexivity.
Defined.

(** * Further properties of the two servers *)

Section FileNames.

Lemma all_chars_weaken (f g : ascii → bool) s :
  (∀ c, f c = true → g c = true) →
  all_chars f s = true → all_chars g s = true.
Proof.
  intros Hfg. induction s as [|c s IH]; simpl; [done|].
  intros [Hc Hs]%andb_true_iff. by rewrite (Hfg c Hc), IH.
Qed.

Lemma all_chars_filter f s : all_chars f (filter_chars f s) = true.
Proof.
  induction s as [|c s IH]; simpl; [done|].
  destruct (f c) eqn:E; simpl; [by rewrite E|done].
Qed.

Lemma all_chars_substring f s : ∀ n m,
  all_chars f s = true → all_chars f (String.substring n m s) = true.
Proof.
  induction s as [|c s IH]; intros n m Hs.
  - by destruct n, m.
  - simpl in Hs. apply andb_true_iff in Hs as [Hc Hs].
    destruct n as [|n]; simpl.
    + destruct m as [|m]; simpl; [done|]. by rewrite Hc, IH.
    + by apply IH.
Qed.

Lemma length_substring_le s : ∀ n m,
  (String.length (String.substring n m s) ≤ m)%nat.
Proof.
  induction s as [|c s IH]; intros n m.
  - destruct n, m; simpl; lia.
  - destruct n as [|n]; simpl.
    + destruct m as [|m]; simpl; [lia|]. specialize (IH 0 m). lia.
    + apply IH.
Qed.

Lemma kept_not_underscore c :
  kept_char c = true → is_space c = false → is_underscore c = false.
Proof.
  unfold kept_char, is_underscore. intros Hk Hs. rewrite Hs, orb_false_r in Hk.
  destruct (Ascii.eqb c "_") eqn:E; [|done].
  apply Ascii.eqb_eq in E as ->. discriminate Hk.
Qed.

Lemma all_chars_collapse s : ∀ b,
  all_chars kept_char s = true →
  all_chars safe_char (collapse_spaces b s) = true.
Proof.
  induction s as [|c s IH]; intros b Hs; [done|].
  simpl in Hs. apply andb_true_iff in Hs as [Hc Hs]. simpl.
  destruct (is_space c) eqn:Esp.
  - destruct b; simpl; auto.
  - simpl. rewrite (IH false Hs), andb_true_r.
    unfold kept_char in Hc. unfold safe_char.
    rewrite Esp, orb_false_r in Hc. by rewrite Hc.
Qed.

(** X1.  The part of a file name made from the prompt holds only
    lower-case letters, digits and underscores, and is at most 50
    characters long, whatever the prompt is. *)
Theorem safePrompt_charset prompt :
  all_chars safe_char (safePrompt prompt) = true
  ∧ (String.length (safePrompt prompt) ≤ 50)%nat.
Proof.
  unfold safePrompt. split; [|apply length_substring_le].
  apply all_chars_substring, all_chars_collapse, all_chars_filter.
Qed.

Lemma no_double_underscore_cons c c' rest :
  no_double_underscore (String c (String c' rest)) =
    negb (is_underscore c && is_underscore c')
    && no_double_underscore (String c' rest).
Proof. reflexivity. Qed.

Lemma collapse_shape s : ∀ b,
  all_chars kept_char s = true →
  no_double_underscore (collapse_spaces b s) = true
  ∧ (b = true → starts_with_underscore (collapse_spaces b s) = false).
Proof.
  induction s as [|c s IH]; intros b Hs; [done|].
  simpl in Hs. apply andb_true_iff in Hs as [Hc Hs].
  cbn [collapse_spaces]. destruct (is_space c) eqn:Esp.
  - destruct b; [by apply IH|]. split; [|done].
    destruct (IH true Hs) as [Hnd Hst]. specialize (Hst eq_refl).
    destruct (collapse_spaces true s) as [|c' rest]; [done|].
    simpl in Hst. by rewrite no_double_underscore_cons, Hst, andb_false_r, Hnd.
  - pose proof (kept_not_underscore c Hc Esp) as Hu.
    destruct (IH false Hs) as [Hnd _]. split; [|by intros _; simpl].
    destruct (collapse_spaces false s) as [|c' rest]; [done|].
    by rewrite no_double_underscore_cons, Hu, Hnd.
Qed.

Lemma no_double_underscore_prefix s : ∀ m,
  no_double_underscore s = true →
  no_double_underscore (String.substring 0 m s) = true.
Proof.
  induction s as [|c s IH]; intros m Hs; [by destruct m|].
  destruct m as [|m]; [done|]. cbn [String.substring].
  destruct s as [|c' s]; [by destruct m|].
  rewrite no_double_underscore_cons in Hs.
  apply andb_true_iff in Hs as [Hcc Hs].
  specialize (IH m Hs). destruct m as [|m]; [done|].
  cbn [String.substring] in *.
  by rewrite no_double_underscore_cons, Hcc, IH.
Qed.

(** X2.  The part of a file name made from the prompt never holds two
    underscores in a row: a run of white space becomes one underscore and
    the underscores of the prompt itself are dropped. *)
Theorem safePrompt_single_underscores prompt :
  no_double_underscore (safePrompt prompt) = true.
Proof.
  unfold safePrompt. apply no_double_underscore_prefix.
  apply (collapse_shape _ false), all_chars_filter.
Qed.

End FileNames.

Section Logger.

Lemma logLevels_cases k :
  k = "error" ∨ k = "warn" ∨ k = "info" ∨ k = "debug"
  ∨ (logLevels k = Inherited ∧ existsb (String.eqb k) OBJECT_PROTOTYPE_KEYS = true)
  ∨ logLevels k = Absent.
Proof.
  unfold logLevels.
  destruct (String.eqb k "error") eqn:E1; [apply String.eqb_eq in E1; auto|].
  destruct (String.eqb k "warn") eqn:E2; [apply String.eqb_eq in E2; auto|].
  destruct (String.eqb k "info") eqn:E3; [apply String.eqb_eq in E3; auto|].
  destruct (String.eqb k "debug") eqn:E4;
    [apply String.eqb_eq in E4; auto 6|].
  destruct (existsb _ _); auto 8.
Qed.

Lemma log_written LOG_LEVEL timestamp level message data :
  is_Some (log LOG_LEVEL timestamp level message data)
  ↔ log_enabled LOG_LEVEL level = true.
Proof.
  unfold log. destruct (log_enabled LOG_LEVEL level).
  - split; [done | by eexists].
  - split; [by intros [? [=]] | done].
Qed.

(** X3.  Which levels the logger writes, for any [LOG_LEVEL] that is
    not a name inherited from [Object.prototype]: [error] and [warn]
    messages are always written, [info] messages unless [LOG_LEVEL] is
    ["warn"], and [debug] messages only when [LOG_LEVEL] is ["debug"].
    In particular [LOG_LEVEL=error] filters like [info], the level 0
    being falsy. *)
Theorem log_levels_written (env : option string) timestamp message data :
  let LOG_LEVEL := LOG_LEVEL_of env in
  let written level := is_Some (log LOG_LEVEL timestamp level message data) in
  existsb (String.eqb LOG_LEVEL) OBJECT_PROTOTYPE_KEYS = false →
  written "error"
  ∧ written "warn"
  ∧ (written "info" ↔ LOG_LEVEL ≠ "warn")
  ∧ (written "debug" ↔ LOG_LEVEL = "debug").
Proof.
  intros LOG_LEVEL written Hown. unfold written.
  rewrite !log_written. clearbody LOG_LEVEL.
  destruct (logLevels_cases LOG_LEVEL)
    as [-> | [-> | [-> | [-> | [[_ Hin] | Habs]]]]].
  - repeat split; try done.
  - repeat split; try done.
  - repeat split; try done.
  - repeat split; try done.
  - congruence.
  - unfold log_enabled. rewrite Habs. simpl.
    unfold logLevels in Habs.
    destruct (String.eqb LOG_LEVEL "error") eqn:E1; [done|].
    destruct (String.eqb LOG_LEVEL "warn") eqn:E2; [done|].
    destruct (String.eqb LOG_LEVEL "info") eqn:E3; [done|].
    destruct (String.eqb LOG_LEVEL "debug") eqn:E4; [done|].
    apply String.eqb_neq in E2, E4. repeat split; done.
Qed.

End Logger.

Section Payload.
Context `{Host}.

(** X4.  The payload of an accepted request is well formed in its
    enumerated fields: [prompt] is a non-empty string, [aspect_ratio] is
    in the set of the server, [size] is in the set of the server when it
    is present, and on the 4.0 server the sequential mode is in its set. *)
Theorem payload_enumerations v params input :
  normalize v params = inr input →
  (∃ s, prop "prompt" input = Str s ∧ s ≠ "")
  ∧ includes (VALID_ASPECT_RATIOS v) (prop "aspect_ratio" input) = true
  ∧ (has_key "size" input = true →
     includes (VALID_SIZES v) (prop "size" input) = true)
  ∧ (v = SeedDream4 →
     includes V4.VALID_SEQUENTIAL_MODES
              (prop "sequential_image_generation" input) = true).
Proof.
  intros Hn. apply normalize_passed in Hn. destruct v.
  - destruct Hn as [Hv ->].
    apply V3_validate_passed in Hv as ([Ht Hty] & Har & Hsz).
    split; [|split; [|split]].
    + rewrite V3_payload_field by reflexivity. by apply nonempty_string.
    + rewrite V3_payload_field by reflexivity. by apply enum_or_else.
    + intros Hkey. rewrite V3_payload_size by done. by apply enum_or_else.
    + discriminate.
  - destruct Hn as [Hv ->].
    apply V4_validate_passed in Hv as ([Ht Hty] & Hsz & Har & Hseq & _).
    split; [|split; [|split]].
    + rewrite V4_payload_field by reflexivity. by apply nonempty_string.
    + rewrite V4_payload_field by reflexivity. by apply enum_or_else.
    + intros _. rewrite V4_payload_field by reflexivity.
      by apply enum_or_else.
    + intros _. rewrite V4_payload_field by reflexivity.
      by apply enum_or_else.
Qed.

Lemma bounded_or_else a lo hi d n :
  and_b (truthy a) (or_b (lt a lo) (gt a hi)) = inr false →
  (lo <= d <= hi)%Z →
  or_else a (int d) = Num n →
  ∃ q, n = Finite q ∧ (inject_Z lo <= q <= inject_Z hi)%Q.
Proof.
  unfold or_else. destruct (truthy a) eqn:Ht; simpl.
  - intros Hcheck _ ->. unfold lt, gt, num_gt in Hcheck.
    cbn [ToNumber] in Hcheck. rewrite or_b_inr in Hcheck.
    injection Hcheck as Hcheck.
    destruct n as [q| | |]; simpl in *; try discriminate.
    exists q. split; [done|].
    apply orb_false_iff in Hcheck as [Hlo Hhi].
    apply negb_false_iff, Qle_bool_iff in Hlo, Hhi. done.
  - intros _ [Hlo Hhi] [= <-]. eexists. split; [reflexivity|].
    split; by rewrite <- Zle_Qle.
Qed.

(** X5.  In the payload of a request accepted by the 4.0 server, a
    numeric [max_images] is finite and within 1..15, an [image_input]
    array has at most 10 elements, and a numeric [width] or [height] is
    finite and within 1024..4096. *)
Theorem V4_payload_bounds params input :
  V4.normalize params = inr input →
  (∀ n, prop "max_images" input = Num n →
        ∃ q, n = Finite q ∧ (1 <= q <= 15)%Q)
  ∧ (∀ xs, prop "image_input" input = Arr xs → (length xs ≤ 10)%nat)
  ∧ (∀ n, prop "width" input = Num n →
          ∃ q, n = Finite q ∧ (1024 <= q <= 4096)%Q)
  ∧ (∀ n, prop "height" input = Num n →
          ∃ q, n = Finite q ∧ (1024 <= q <= 4096)%Q).
Proof.
  intros Hn. apply (normalize_passed SeedDream4) in Hn as [Hv ->].
  apply V4_validate_passed in Hv as (_ & _ & _ & _ & Hmax & Himg & Hdim).
  cbv zeta in *.
  split; [|split].
  - intros n. rewrite V4_payload_field by reflexivity. simpl.
    by apply (bounded_or_else _ 1 15 1).
  - intros xs. rewrite V4_payload_field by reflexivity. simpl.
    unfold or_else. destruct (truthy (get params "image_input")).
    + intros E. rewrite E in Himg. unfold gt, num_gt in Himg. simpl in Himg.
      injection Himg as Himg.
      apply negb_false_iff, Qle_bool_iff in Himg.
      change 10%Q with (inject_Z 10) in Himg. rewrite <- Zle_Qle in Himg. lia.
    + intros [= <-]. simpl. lia.
  - unfold V4.build_input.
    destruct (strict_eq_str (get params "size") "custom").
    + destruct (Hdim eq_refl) as [Hw Hh]. simpl. split; intros n.
      * by apply (bounded_or_else _ 1024 4096 2048).
      * by apply (bounded_or_else _ 1024 4096 2048).
    + simpl. split; intros n [=].
Qed.

Lemma get_list_to_map (o : object) k :
  get (list_to_map o) k = prop k o.
Proof.
  induction o as [|[k' v] o IH]; [done|]. simpl. unfold get in *.
  destruct (String.eqb_spec k' k) as [->|Hne].
  - by rewrite lookup_insert_eq.
  - by rewrite lookup_insert_ne.
Qed.

Lemma or_else_truthy a d : truthy d = true → truthy (or_else a d) = true.
Proof. unfold or_else. by destruct (truthy a) eqn:E. Qed.

Lemma or_else_idem a d :
  truthy d = true → or_else (or_else a d) d = or_else a d.
Proof. intros Hd. unfold or_else at 1. by rewrite or_else_truthy. Qed.

Lemma check_or_else (P : value → bool) a d :
  truthy a && P a = false → P d = false →
  truthy (or_else a d) && P (or_else a d) = false.
Proof.
  unfold or_else. destruct (truthy a) eqn:E; simpl.
  - intros ->. by rewrite E.
  - intros _ ->. apply andb_false_r.
Qed.

Lemma range_or_else (P : value → throws bool) a d :
  and_b (truthy a) (P a) = inr false → P d = inr false →
  and_b (truthy (or_else a d)) (P (or_else a d)) = inr false.
Proof.
  unfold or_else. destruct (truthy a) eqn:E; simpl.
  - by rewrite E.
  - intros _ ->. by destruct (truthy d).
Qed.

Lemma V4_renormalize params :
  V4.validate params = inr tt →
  V4.normalize (list_to_map (V4.build_input params))
    = inr (V4.build_input params).
Proof.
  intros Hv.
  apply V4_validate_passed in Hv
    as ([Ht Hty] & Hsz & Har & Hseq & Hmax & Himg & Hdim).
  cbv zeta in *.
  pose proof (custom_or_else (get params "size") "2K" eq_refl) as Hcustom.
  pose proof (check_or_else (λ x, negb (includes V4.VALID_SIZES x))
                _ (Str "2K") Hsz eq_refl) as Hsz'.
  pose proof (check_or_else (λ x, negb (includes V4.VALID_ASPECT_RATIOS x))
                _ (Str "match_input_image") Har eq_refl) as Har'.
  pose proof (check_or_else (λ x, negb (includes V4.VALID_SEQUENTIAL_MODES x))
                _ (Str "disabled") Hseq eq_refl) as Hseq'.
  pose proof (range_or_else (λ x, or_b (lt x 1) (gt x 15))
                _ (int 1) Hmax eq_refl) as Hmax'.
  pose proof (range_or_else (λ x, gt (get_length x) 10)
                _ (Arr []) Himg eq_refl) as Himg'.
  cbv beta in *.
  pose proof (or_else_idem (get params "size") (Str "2K") eq_refl) as Isz.
  pose proof (or_else_idem (get params "aspect_ratio")
                (Str "match_input_image") eq_refl) as Iar.
  pose proof (or_else_idem (get params "sequential_image_generation")
                (Str "disabled") eq_refl) as Iseq.
  pose proof (or_else_idem (get params "max_images") (int 1) eq_refl) as Imax.
  pose proof (or_else_idem (get params "image_input") (Arr []) eq_refl)
    as Iimg.
  pose proof (or_else_idem (get params "width") (int 2048) eq_refl) as Iw.
  pose proof (or_else_idem (get params "height") (int 2048) eq_refl) as Ih.
  unfold V4.build_input at 1 2.
  destruct (strict_eq_str (get params "size") "custom") eqn:Ec.
  - destruct (Hdim eq_refl) as [Hw Hh].
    pose proof (range_or_else (λ x, or_b (lt x 1024) (gt x 4096))
                  _ (int 2048) Hw eq_refl) as Hw'.
    pose proof (range_or_else (λ x, or_b (lt x 1024) (gt x 4096))
                  _ (int 2048) Hh eq_refl) as Hh'.
    cbv beta in *. cbn [set_prop String.eqb Ascii.eqb Bool.eqb].
    unfold V4.normalize, V4.validate, V4.build_input.
    rewrite !get_list_to_map. cbn [prop String.eqb Ascii.eqb Bool.eqb].
    rewrite Ht, Hty, Hsz', Har', Hseq', Hmax', Himg', Hcustom, Hw', Hh'.
    rewrite Isz, Iar, Iseq, Imax, Iimg, Iw, Ih. reflexivity.
  - unfold V4.normalize, V4.validate, V4.build_input.
    rewrite !get_list_to_map. cbn [prop String.eqb Ascii.eqb Bool.eqb].
    rewrite Ht, Hty, Hsz', Har', Hseq', Hmax', Himg', Hcustom.
    rewrite Isz, Iar, Iseq, Imax, Iimg. reflexivity.
Qed.

Lemma V3_renormalize params :
  V3.validate params = inr tt →
  V3.normalize (list_to_map (V3.build_input params))
    = inr (V3.build_input params).
Proof.
  intros Hv. apply V3_validate_passed in Hv as ([Ht Hty] & Har & Hsz).
  cbv zeta in *.
  pose proof (custom_or_else (get params "aspect_ratio") "16:9" eq_refl)
    as Hcustom.
  pose proof (check_or_else (λ x, negb (includes V3.VALID_ASPECT_RATIOS x))
                _ (Str "16:9") Har eq_refl) as Har'.
  pose proof (check_or_else (λ x, negb (includes V3.VALID_SIZES x))
                _ (Str "regular") Hsz eq_refl) as Hsz'.
  cbv beta in *.
  pose proof (or_else_idem (get params "aspect_ratio") (Str "16:9") eq_refl)
    as Iar.
  pose proof (or_else_idem (get params "guidance_scale")
                (Num (Finite (5 # 2))) eq_refl) as Igs.
  pose proof (or_else_idem (get params "size") (Str "regular") eq_refl)
    as Isz.
  pose proof (or_else_idem (get params "width") (int 2048) eq_refl) as Iw.
  pose proof (or_else_idem (get params "height") (int 2048) eq_refl) as Ih.
  unfold V3.build_input at 1 2.
  destruct (strict_eq_str (get params "aspect_ratio") "custom") eqn:Ec;
    simpl negb; cbv iota;
    destruct (get params "seed") eqn:Es;
    cbn [set_prop String.eqb Ascii.eqb Bool.eqb];
    unfold V3.normalize, V3.validate, V3.build_input;
    rewrite !get_list_to_map; cbn [prop String.eqb Ascii.eqb Bool.eqb];
    rewrite Ht, Hty, Har', Hcustom, ?Hsz', Iar, Igs, ?Isz, ?Iw, ?Ih;
    reflexivity.
Qed.

(** X6.  Normalization is idempotent on both servers: the payload of
    an accepted request, sent back as a request, is accepted and
    normalizes to itself. *)
Theorem normalize_idempotent v params input :
  normalize v params = inr input →
  normalize v (list_to_map input) = inr input.
Proof.
  intros Hn. apply normalize_passed in Hn.
  destruct v; destruct Hn as [Hv ->]; simpl.
  - by apply V3_renormalize.
  - by apply V4_renormalize.
Qed.

Lemma first_failure_throws before e after cond err :
  Forall (λ e', cond e' = inr false) before →
  cond e = inl err →
  first_failure (before ++ e :: after) cond = inl err.
Proof.
  intros Hpass Hthrow. induction Hpass as [|e' before He' _ IH]; simpl.
  - by rewrite Hthrow.
  - by rewrite He'.
Qed.

Lemma unprintable_ToNumber v : ¬ printable v → ToNumber v = None.
Proof.
  unfold printable. destruct v; try (intros Hv; destruct Hv; by eexists);
    cbn [ToNumber]; (destruct (ToString _); [|done]);
    intros Hv; destruct Hv; by eexists.
Qed.

Lemma range_check_unprintable v lo hi :
  ¬ printable v →
  and_b (truthy v) (or_b (lt v lo) (gt v hi))
    = inl (TypeError (ConversionErrorMessage v)).
Proof.
  intros Hv. rewrite (unprintable_truthy v) by done.
  unfold lt. by rewrite (unprintable_ToNumber v).
Qed.

(** X17.  On the 4.0 server, when the checks before the range check of
    [max_images], [width] or [height] pass and the field is an object
    or array that has no primitive value, the comparison throws: the
    call is answered with the [TypeError] of the engine instead of the
    error of the check, before any call to the outside. *)
Theorem V4_unconvertible_operand_rejected params k e before after :
  In (k, e) V4_range_checked →
  V4.checks = (before ++ e :: after)%list →
  Forall (λ e', V4.condition e' params = inr false) before →
  (e ≠ InvalidMaxImages → get params "size" = Str "custom") →
  ¬ printable (get params k) →
  fails_before_upstream SeedDream4 params
    (TypeError (ConversionErrorMessage (get params k))).
Proof.
  intros Hin Horder Hpass Hcustom Hk.
  apply (rejected_before_upstream SeedDream4).
  rewrite (normalize_checks SeedDream4). cbn [checks condition].
  rewrite Horder.
  rewrite (first_failure_throws before e after _
             (TypeError (ConversionErrorMessage (get params k))) Hpass);
    [done|].
  destruct Hin as [[= <- <-] | [[= <- <-] | [[= <- <-] | []]]];
    cbn [V4.condition]; cbv zeta; rewrite ?Hcustom by done;
    cbn [strict_eq_str String.eqb Ascii.eqb Bool.eqb];
    by apply range_check_unprintable.
Qed.

End Payload.

Section Runs.
Context `{Host}.

(** X7.  When the upstream call is rejected or the timer fires first,
    the handler of either server answers with an error response that
    carries the message of the failure and the tip chosen from it, and
    the upstream call is the only call made: nothing is downloaded and
    nothing is retried. *)
Theorem upstream_failure_surfaced v params input c St (w : world St) s
    answer message :
  normalize v params = inr input →
  (w_run w (model v) input (w_now w s).2).1 = answer →
  failure_message answer = Some message →
  let r := exec w (handler v (Some c) (Some params)) s in
  returned r =
    Response (ErrorText (FailedToGenerate message
                           (helpfulMessage v message))) true
  ∧ calls r = [CallRun (model v) input answer].
Proof.
  intros Hn Hrun Hmsg.
  destruct v; simpl in *; unfold V3.handler, V4.handler; simpl; rewrite Hn;
    unfold V3.generate, V4.generate; simpl;
    destruct (w_now w s) as [t0 s0]; simpl in Hrun;
    destruct (w_run w _ input s0) as [ans s1]; simpl in Hrun; subst ans;
    destruct answer as [[out|e]|]; simpl in Hmsg; try discriminate Hmsg;
    injection Hmsg as <-; done.
Qed.


(** X8.  On the 3.0 server, an upstream value that is not a non-empty
    string starting with [http] fails the call: with the empty-output
    message when the value is falsy, with the invalid-format message
    naming its [typeof] otherwise; no download is attempted. *)
Theorem V3_malformed_output_fails params input c out St (w : world St) s :
  V3.normalize params = inr input →
  (w_run w "bytedance/seedream-3" input (w_now w s).2).1
    = Settled (Fulfilled out) →
  V3_image_url out = None →
  let r := exec w (V3.handler (Some c) (Some params)) s in
  returned r =
    Response
      (ErrorText
         (FailedToGenerate
            (if V3.output_truthy out
             then "Invalid response format from Replicate: "
                  ++ V3.output_typeof out
             else V3.EMPTY_OUTPUT)
            None)) true
  ∧ calls r =
      [CallRun "bytedance/seedream-3" input (Settled (Fulfilled out))].
Proof.
  intros Hn Hrun Hurl. unfold V3.handler. simpl. rewrite Hn.
  unfold V3.generate. simpl.
  destruct (w_now w s) as [t0 s0]. simpl in Hrun.
  destruct (w_run w "bytedance/seedream-3" input s0) as [ans s1].
  simpl in Hrun. subst ans. simpl.
  destruct (w_now w s1) as [t1 s2].
  destruct (V3.output_truthy out) eqn:Et; simpl; [|done].
  destruct out as [v|items]; [|done].
  destruct v as [| |b|n|url|xs|fields]; try done.
  unfold V3_image_url, valid_url in Hurl. simpl in Et. simpl in Hurl.
  rewrite Et in Hurl. simpl in Hurl.
  destruct (startsWith url "http"); [discriminate Hurl|]. done.
Qed.







(** The loop stops at the first element whose [url()] throws; the
    well-formed URLs before it have been attempted by then. *)
Lemma V4_download_loop_throws {St} (w : world St) prompt ts urls e rest :
  Forall (λ u, startsWith u "http" = true) urls →
  ∀ i acc s,
    let r := exec w (V4.download_loop prompt ts
                       (List.map (λ u, UrlReturns (Str u)) urls
                        ++ UrlThrows e :: rest)%list i acc) s in
    returned r = inl e ∧ download_urls (calls r) = urls.
Proof.
  induction 1 as [|u urls Hu _ IH]; intros i acc s; [done|].
  cbn [List.map app]. cbv zeta.
  rewrite V4_download_loop_http by done.
  rewrite exec_bind. cbv zeta.
  set (rf := exec w (V4.generateImageFilename prompt i ts) s).
  pose proof (V4_filename_calls w prompt i ts s) as Hf. fold rf in Hf.
  rewrite Hf, exec_bind. cbv zeta.
  destruct (downloadImage_exec w u (returned rf) (final rf))
    as (filePath & ans & Hc & _ & Hr).
  set (rd := exec w (downloadImage u (returned rf)) (final rf)) in *.
  rewrite Hc, Hr. cbn [returned calls final app download_urls].
  destruct ans as [[]|e'].
  - destruct (IH (S i) (acc ++ [V4.Downloaded u filePath i])%list (final rd))
      as [-> ->]. done.
  - destruct (IH (S i) (acc ++ [V4.Downloaded u "" i])%list (final rd))
      as [-> ->]. done.
Qed.

(** X10.  On the 4.0 server, an element of the upstream array whose
    [url()] throws fails the whole call with that exception, although
    the well-formed URLs before it have already been downloaded; the
    elements after it are not attempted. *)
Theorem V4_broken_element_fails params input c out urls e rest
    St (w : world St) s :
  V4.normalize params = inr input →
  (w_run w "bytedance/seedream-4" input (w_now w s).2).1
    = Settled (Fulfilled out) →
  V4.as_array out =
    Some (List.map (λ u, UrlReturns (Str u)) urls
          ++ UrlThrows e :: rest)%list →
  Forall (λ u, startsWith u "http" = true) urls →
  let r := exec w (V4.handler (Some c) (Some params)) s in
  returned r = V4.api_catch e
  ∧ isError (returned r) = true
  ∧ download_urls (calls r) = urls.
Proof.
  intros Hn Hrun Harr Hhttp. unfold V4.handler. simpl. rewrite Hn.
  unfold V4.generate. simpl.
  destruct (w_now w s) as [t0 s0]. simpl in Hrun.
  destruct (w_run w "bytedance/seedream-4" input s0) as [ans s1].
  simpl in Hrun. subst ans. simpl.
  destruct (w_now w s1) as [t1 s2]. rewrite Harr.
  destruct (List.map (λ u, UrlReturns (Str u)) urls
            ++ UrlThrows e :: rest)%list as [|it items] eqn:Eitems.
  { by destruct urls. }
  cbn -[V4.download_loop].
  destruct (w_iso w s2) as [iso s3]. rewrite exec_bind. cbv zeta.
  rewrite <- Eitems.
  destruct (V4_download_loop_throws w
              (string_of (get (default ∅ (Some params)) "prompt"))
              (dash_time iso) urls e rest Hhttp 0 [] s3) as [Hret Hurls].
  simpl in Hret. rewrite Hret. simpl. rewrite app_nil_r. done.
Qed.

(** X11.  On the 4.0 server, a non-empty upstream array of plain data
    (URL strings, say, instead of file objects) fails the call with the
    [TypeError] of its first element, before any download. *)
Theorem V4_plain_array_fails params input c x xs St (w : world St) s :
  V4.normalize params = inr input →
  (w_run w "bytedance/seedream-4" input (w_now w s).2).1
    = Settled (Fulfilled (Plain (Arr (x :: xs)))) →
  let r := exec w (V4.handler (Some c) (Some params)) s in
  returned r = V4.api_catch (JsError (TypeErrorMessage x))
  ∧ isError (returned r) = true
  ∧ calls r =
      [CallRun "bytedance/seedream-4" input
               (Settled (Fulfilled (Plain (Arr (x :: xs)))))].
Proof.
  intros Hn Hrun. unfold V4.handler. simpl. rewrite Hn.
  unfold V4.generate. simpl.
  destruct (w_now w s) as [t0 s0]. simpl in Hrun.
  destruct (w_run w "bytedance/seedream-4" input s0) as [ans s1].
  simpl in Hrun. subst ans. simpl.
  destruct (w_now w s1) as [t1 s2]. destruct (w_iso w s2) as [iso s3].
  done.
Qed.

Lemma valid_urls_skip v vs :
  valid_url v = false → valid_urls (v :: vs) = valid_urls vs.
Proof.
  intros Hv. destruct v; cbn [valid_urls]; try done. by rewrite Hv.
Qed.

Lemma fulfilled_le_downloads cs :
  (length (List.filter fulfilled cs) ≤ length (download_urls cs))%nat.
Proof.
  induction cs as [|[m i a|u p [[]|e]] cs IH]; simpl; lia.
Qed.

Lemma valid_urls_le vs : (length (valid_urls vs) ≤ length vs)%nat.
Proof.
  induction vs as [|v vs IH]; [done|].
  destruct v; cbn [valid_urls length]; try lia.
  destruct (valid_url (Str s)); cbn [length]; lia.
Qed.

(** The loop over elements whose [url()] returns a value that has a
    text: the malformed ones are passed over, the others attempted in
    order, one record each. *)
Lemma V4_download_loop_general {St} (w : world St) prompt ts vs :
  Forall printable vs →
  ∀ i acc s,
    let r := exec w (V4.download_loop prompt ts
                       (List.map UrlReturns vs) i acc) s in
    ∃ recs,
      returned r = inr (acc ++ recs)%list
      ∧ download_urls (calls r) = valid_urls vs
      ∧ length recs = length (valid_urls vs)
      ∧ length (List.filter (λ img, truthy (Str (V4.d_localPath img))) recs)
        = length (List.filter fulfilled (calls r)).
Proof.
  induction 1 as [|v vs Hv _ IH]; intros i acc s.
  - exists []. simpl. by rewrite app_nil_r.
  - cbn [List.map]. cbv zeta.
    destruct (valid_url v) eqn:Ev.
    + destruct v as [| | | |u| |]; try discriminate Ev.
      cbn [valid_urls]. rewrite Ev.
      rewrite V4_download_loop_http by by apply valid_url_http.
      rewrite exec_bind. cbv zeta.
      set (rf := exec w (V4.generateImageFilename prompt i ts) s).
      pose proof (V4_filename_calls w prompt i ts s) as Hf. fold rf in Hf.
      rewrite Hf, exec_bind. cbv zeta.
      destruct (downloadImage_exec w u (returned rf) (final rf))
        as (filePath & ans & Hc & Hp & Hr).
      set (rd := exec w (downloadImage u (returned rf)) (final rf)) in *.
      rewrite Hc, Hr. cbn [returned calls final app].
      destruct ans as [[]|e].
      * destruct (IH (S i) (acc ++ [V4.Downloaded u filePath i])%list
                    (final rd)) as (recs & Hret & Hurls & Hlen & Hcount).
        exists (V4.Downloaded u filePath i :: recs).
        rewrite Hret, <- app_assoc.
        cbn [List.filter download_urls fulfilled length app V4.d_localPath].
        rewrite Hp. cbn [length]. rewrite Hurls, Hcount, Hlen. done.
      * destruct (IH (S i) (acc ++ [V4.Downloaded u "" i])%list (final rd))
          as (recs & Hret & Hurls & Hlen & Hcount).
        exists (V4.Downloaded u "" i :: recs).
        rewrite Hret, <- app_assoc.
        cbn [List.filter download_urls fulfilled length app V4.d_localPath].
        change (truthy (Str "")) with false.
        cbv iota. rewrite Hurls, Hcount, Hlen. done.
    + rewrite V4_download_loop_skip, valid_urls_skip by done.
      destruct (printable_interpolate v Hv) as [text ->].
      destruct (IH (S i) acc s) as (recs & Hret & Hurls & Hlen & Hcount).
      exists recs. by rewrite Hret, Hurls, Hlen, Hcount.
Qed.

Lemma unprintable_not_url v : ¬ printable v → valid_url v = false.
Proof.
  destruct v; try done. intros Hv. destruct Hv. by eexists.
Qed.

(** The loop stops at the first malformed element that has no text;
    the well-formed URLs before it have been attempted by then. *)
Lemma V4_download_loop_unprintable {St} (w : world St) prompt ts vs v rest :
  Forall printable vs →
  ¬ printable v →
  ∀ i acc s,
    let r := exec w (V4.download_loop prompt ts
                       (List.map UrlReturns vs ++ UrlReturns v :: rest)%list
                       i acc) s in
    returned r = inl (JsError (ConversionErrorMessage v))
    ∧ download_urls (calls r) = valid_urls vs.
Proof.
  intros Hvs Hv. induction Hvs as [|x vs Hx _ IH]; intros i acc s.
  - cbn [List.map app]. cbv zeta.
    rewrite V4_download_loop_skip by by apply unprintable_not_url.
    by rewrite unprintable_interpolate.
  - cbn [List.map app]. cbv zeta.
    destruct (valid_url x) eqn:Ex.
    + destruct x as [| | | |u| |]; try discriminate Ex.
      cbn [valid_urls]. rewrite Ex.
      rewrite V4_download_loop_http by by apply valid_url_http.
      rewrite exec_bind. cbv zeta.
      set (rf := exec w (V4.generateImageFilename prompt i ts) s).
      pose proof (V4_filename_calls w prompt i ts s) as Hf. fold rf in Hf.
      rewrite Hf, exec_bind. cbv zeta.
      destruct (downloadImage_exec w u (returned rf) (final rf))
        as (filePath & ans & Hc & _ & Hr).
      set (rd := exec w (downloadImage u (returned rf)) (final rf)) in *.
      rewrite Hc, Hr. cbn [returned calls final app download_urls].
      destruct ans as [[]|e].
      * destruct (IH (S i) (acc ++ [V4.Downloaded u filePath i])%list
                    (final rd)) as [-> ->]. done.
      * destruct (IH (S i) (acc ++ [V4.Downloaded u "" i])%list (final rd))
          as [-> ->]. done.
    + rewrite V4_download_loop_skip, valid_urls_skip by done.
      destruct (printable_interpolate x Hx) as [text ->].
      apply IH.
Qed.

(** X16.  On the 4.0 server, an element of the upstream array whose
    [url()] answers with a value that is no URL and has no text fails
    the whole call with the [TypeError] of the conversion, raised while
    the warning about it is worded; the well-formed URLs before it have
    already been downloaded, and the elements after it are not
    attempted. *)
Theorem V4_unprintable_url_fails params input c vs v rest
    St (w : world St) s :
  V4.normalize params = inr input →
  Forall printable vs →
  ¬ printable v →
  (w_run w "bytedance/seedream-4" input (w_now w s).2).1
    = Settled (Fulfilled
                 (Files (List.map UrlReturns vs ++ UrlReturns v :: rest)%list)) →
  let r := exec w (V4.handler (Some c) (Some params)) s in
  returned r = V4.api_catch (JsError (ConversionErrorMessage v))
  ∧ isError (returned r) = true
  ∧ download_urls (calls r) = valid_urls vs.
Proof.
  intros Hn Hvs Hv Hrun. unfold V4.handler. simpl. rewrite Hn.
  unfold V4.generate. simpl.
  destruct (w_now w s) as [t0 s0]. simpl in Hrun.
  destruct (w_run w "bytedance/seedream-4" input s0) as [ans s1].
  simpl in Hrun. subst ans. simpl.
  destruct (w_now w s1) as [t1 s2].
  destruct (List.map UrlReturns vs ++ UrlReturns v :: rest)%list
    as [|it items] eqn:Eitems.
  { by destruct vs. }
  cbn -[V4.download_loop].
  destruct (w_iso w s2) as [iso s3]. rewrite exec_bind. cbv zeta.
  rewrite <- Eitems.
  destruct (V4_download_loop_unprintable w
              (string_of (get (default ∅ (Some params)) "prompt"))
              (dash_time iso) vs v rest Hvs Hv 0 [] s3) as [Hret Hurls].
  simpl in Hret. rewrite Hret. simpl. rewrite app_nil_r. done.
Qed.

(** X12.  On the 4.0 server, for a non-empty upstream array whose
    elements all answer [url()] with a value that has a text (the
    warning about a malformed element converts it): the call reports
    success; exactly the well-formed URLs are downloaded, in order; the
    summary has one line per attempted download, so the malformed
    elements are counted in the total but listed nowhere; and
    downloaded <= listed <= total. *)
Theorem V4_skips_malformed_urls params input c vs St (w : world St) s :
  V4.normalize params = inr input →
  vs ≠ [] →
  Forall printable vs →
  (w_run w "bytedance/seedream-4" input (w_now w s).2).1
    = Settled (Fulfilled (Files (List.map UrlReturns vs))) →
  let r := exec w (V4.handler (Some c) (Some params)) s in
  isError (returned r) = false
  ∧ download_urls (calls r) = valid_urls vs
  ∧ ∃ rep,
      content (returned r) = SuccessText rep
      ∧ V4.r_total rep = length vs
      ∧ length (V4.r_imageDetails rep) = length (valid_urls vs)
      ∧ V4.r_successfulDownloads rep
        = length (List.filter fulfilled (calls r))
      ∧ (V4.r_successfulDownloads rep ≤ length (V4.r_imageDetails rep)
         ≤ V4.r_total rep)%nat.
Proof.
  intros Hn Hne Hvs Hrun. unfold V4.handler. simpl. rewrite Hn.
  unfold V4.generate. simpl.
  destruct (w_now w s) as [t0 s0]. simpl in Hrun.
  destruct (w_run w "bytedance/seedream-4" input s0) as [ans s1].
  simpl in Hrun. subst ans. simpl.
  destruct (w_now w s1) as [t1 s2].
  destruct (List.map UrlReturns vs) as [|it items] eqn:Eitems.
  { by destruct vs. }
  cbn -[V4.download_loop].
  destruct (w_iso w s2) as [iso s3]. rewrite exec_bind. cbv zeta.
  rewrite <- Eitems.
  destruct (V4_download_loop_general w
              (string_of (get (default ∅ (Some params)) "prompt"))
              (dash_time iso) vs Hvs 0 [] s3)
    as (recs & Hret & Hurls & Hlen & Hcount).
  simpl in Hret. rewrite Hret.
  destruct (V4_success_returns params input (S (length items)) (t1 - t0)
              recs Hn) as (rep & Hrep & Htotal' & Hdetails & Hdownloads).
  cbn [app length]. rewrite Hrep. simpl. rewrite app_nil_r.
  set (cs := calls (exec w (V4.download_loop _ _ _ _ _) s3)) in *.
  assert (Htotal : S (length items) = length vs).
  { by rewrite <- (length_map UrlReturns vs), Eitems. }
  split; [done|]. split; [exact Hurls|].
  exists rep. split; [reflexivity|].
  rewrite Htotal', Hdetails, Hdownloads.
  split; [exact Htotal|].
  split; [by rewrite length_map|].
  split; [exact Hcount|].
  rewrite length_map, Hlen, Htotal, Hcount.
  pose proof (fulfilled_le_downloads cs) as Hle. rewrite Hurls in Hle.
  pose proof (valid_urls_le vs). lia.
Qed.

End Runs.

(** Split on whether [k] is the next advertised property. *)
Ltac next_property Hp k :=
  let E := fresh "E" in
  cbn [property] in Hp;
  match type of Hp with
  | (if String.eqb ?k' k then _ else _) = _ =>
      destruct (String.eqb_spec k' k) as [E|E];
      [subst k; injection Hp as <-|]
  end.

Section Listing.
Context `{Host}.

Lemma conforms_get t params k p :
  conforms t params →
  property k (t_properties t) = Some p →
  get params k = Undefined ∨ conforms_to p (get params k) = true.
Proof.
  intros [_ Hc] Hp. unfold get. destruct (params !! k) as [v|] eqn:E.
  - right. by apply (Hc k p v).
  - by left.
Qed.

Lemma conforms_enum p v allowed :
  conforms_to p v = true → ps_enum p = Some allowed →
  truthy v && negb (includes allowed v) = false.
Proof.
  unfold conforms_to. intros Hc He. rewrite He in Hc.
  do 4 (apply andb_true_iff in Hc as [Hc _]).
  apply andb_true_iff in Hc as [_ ->]. apply andb_false_r.
Qed.

Lemma conforms_range p v (lo hi : Z) :
  conforms_to p v = true → ps_type p = "integer" →
  ps_minimum p = Some (inject_Z lo) → ps_maximum p = Some (inject_Z hi) →
  and_b (truthy v) (or_b (lt v lo) (gt v hi)) = inr false.
Proof.
  unfold conforms_to. intros Hc Hty Hlo Hhi. rewrite Hty, Hlo, Hhi in Hc.
  destruct v as [| |b|n|u|xs|fields]; simpl in Hc; try discriminate Hc.
  do 2 (apply andb_true_iff in Hc as [Hc _]).
  apply andb_true_iff in Hc as [Hc Hmax].
  apply andb_true_iff in Hc as [_ Hmin].
  apply negb_true_iff in Hmin, Hmax.
  unfold lt, gt, num_gt. cbn [ToNumber].
  rewrite or_b_inr, and_b_inr. simpl. rewrite Hmin, Hmax.
  by rewrite andb_false_r.
Qed.

Lemma conforms_items p v (m : nat) (c : Z) :
  conforms_to p v = true → ps_type p = "array" →
  ps_maxItems p = Some m → (Z.of_nat m ≤ c)%Z →
  and_b (truthy v) (gt (get_length v) c) = inr false.
Proof.
  unfold conforms_to. intros Hc Hty Hm Hmc. rewrite Hty, Hm in Hc.
  destruct v as [| |b|n|u|xs|fields]; simpl in Hc; try discriminate Hc.
  apply andb_true_iff in Hc as [Hc _].
  apply andb_true_iff in Hc as [_ Hle]. apply Nat.leb_le in Hle.
  unfold gt, num_gt. simpl. f_equal. apply negb_false_iff, Qle_bool_iff.
  rewrite <- Zle_Qle. lia.
Qed.

Lemma conforms_prompt t params p :
  conforms t params → In "prompt" (t_required t) →
  property "prompt" (t_properties t) = Some p → ps_type p = "string" →
  get params "prompt" ≠ Str "" →
  negb (truthy (get params "prompt"))
  || negb (String.eqb (typeof (get params "prompt")) "string") = false.
Proof.
  intros [Hreq Hc] Hin Hp Hty Hne. destruct (Hreq _ Hin) as [v Hv].
  specialize (Hc _ _ _ Hp Hv). unfold get in *. rewrite Hv in *. simpl in *.
  unfold conforms_to in Hc. rewrite Hty in Hc.
  destruct v as [| |b|n|u|xs|fields]; simpl in Hc; try discriminate Hc.
  simpl. destruct (String.eqb_spec u ""); [by subst|done].
Qed.

(** X13.  Validation never rejects what the listing advertises: on
    either server, arguments that conform to the input schema of
    [generate_image] and whose prompt is not the empty string are
    accepted. *)
Theorem schema_conformant_accepted v t params :
  In t (tools v) →
  conforms t params →
  get params "prompt" ≠ Str "" →
  ∃ input, normalize v params = inr input.
Proof.
  intros Ht Hc Hne. destruct v; simpl in Ht; destruct Ht as [<- | []].
  - pose proof (conforms_prompt _ params _ Hc (or_introl eq_refl)
                  eq_refl eq_refl Hne) as Hp.
    assert (Har : truthy (get params "aspect_ratio")
                  && negb (includes V3.VALID_ASPECT_RATIOS
                                    (get params "aspect_ratio")) = false).
    { destruct (conforms_get _ params "aspect_ratio" _ Hc eq_refl)
        as [-> | Hk]; [done|]. by apply (conforms_enum _ _ _ Hk). }
    assert (Hsz : truthy (get params "size")
                  && negb (includes V3.VALID_SIZES (get params "size"))
                  = false).
    { destruct (conforms_get _ params "size" _ Hc eq_refl)
        as [-> | Hk]; [done|]. by apply (conforms_enum _ _ _ Hk). }
    simpl. unfold V3.normalize, V3.validate. rewrite Hp, Har, Hsz.
    by eexists.
  - pose proof (conforms_prompt _ params _ Hc (or_introl eq_refl)
                  eq_refl eq_refl Hne) as Hp.
    assert (Hsz : truthy (get params "size")
                  && negb (includes V4.VALID_SIZES (get params "size"))
                  = false).
    { destruct (conforms_get _ params "size" _ Hc eq_refl)
        as [-> | Hk]; [done|]. by apply (conforms_enum _ _ _ Hk). }
    assert (Har : truthy (get params "aspect_ratio")
                  && negb (includes V4.VALID_ASPECT_RATIOS
                                    (get params "aspect_ratio")) = false).
    { destruct (conforms_get _ params "aspect_ratio" _ Hc eq_refl)
        as [-> | Hk]; [done|]. by apply (conforms_enum _ _ _ Hk). }
    assert (Hseq : truthy (get params "sequential_image_generation")
                   && negb (includes V4.VALID_SEQUENTIAL_MODES
                              (get params "sequential_image_generation"))
                   = false).
    { destruct (conforms_get _ params "sequential_image_generation" _ Hc
                  eq_refl) as [-> | Hk]; [done|].
      by apply (conforms_enum _ _ _ Hk). }
    assert (Hmax : and_b (truthy (get params "max_images"))
                     (or_b (lt (get params "max_images") 1)
                           (gt (get params "max_images") 15)) = inr false).
    { destruct (conforms_get _ params "max_images" _ Hc eq_refl)
        as [-> | Hk]; [done|]. by apply (conforms_range _ _ 1 15 Hk). }
    assert (Himg : and_b (truthy (get params "image_input"))
                     (gt (get_length (get params "image_input")) 10)
                   = inr false).
    { destruct (conforms_get _ params "image_input" _ Hc eq_refl)
        as [-> | Hk]; [done|]. by apply (conforms_items _ _ 10 10 Hk). }
    assert (Hw : and_b (truthy (get params "width"))
                   (or_b (lt (get params "width") 1024)
                         (gt (get params "width") 4096)) = inr false).
    { destruct (conforms_get _ params "width" _ Hc eq_refl)
        as [-> | Hk]; [done|]. by apply (conforms_range _ _ 1024 4096 Hk). }
    assert (Hh : and_b (truthy (get params "height"))
                   (or_b (lt (get params "height") 1024)
                         (gt (get params "height") 4096)) = inr false).
    { destruct (conforms_get _ params "height" _ Hc eq_refl)
        as [-> | Hk]; [done|]. by apply (conforms_range _ _ 1024 4096 Hk). }
    simpl. unfold V4.normalize, V4.validate.
    rewrite Hp, Hsz, Har, Hseq, Hmax, Himg, Hw, Hh.
    destruct (strict_eq_str (get params "size") "custom"); by eexists.
Qed.

(** X14.  The defaults advertised in the input schema are the defaults
    applied: for an accepted request that leaves out a property with an
    advertised default, the payload, where it has that property, has the
    advertised default. *)
Theorem advertised_defaults_applied v params input k p d :
  normalize v params = inr input →
  property k (advertised v) = Some p →
  ps_default p = Some d →
  params !! k = None →
  has_key k input = true →
  prop k input = d.
Proof.
  intros Hn Hp Hd Hnone Hkey.
  assert (Hget : get params k = Undefined) by (unfold get; by rewrite Hnone).
  apply normalize_passed in Hn.
  destruct v; destruct Hn as [_ ->];
    unfold advertised, tools, V3_tools, V4_tools in Hp;
    cbn [t_properties] in Hp.
  - unfold V3.build_input in *.
    repeat (next_property Hp k;
      [ simpl in Hd; try discriminate Hd; injection Hd as <-;
        rewrite ?Hget in *;
        destruct (strict_eq_str (get params "aspect_ratio") "custom");
        simpl negb in *; cbv iota in *;
        destruct (get params "seed");
        rewrite ?has_key_set_prop, ?prop_set_prop_ne in * by reflexivity;
        simpl in *; rewrite ?Hget; done | ]).
    discriminate Hp.
  - unfold V4.build_input in *.
    repeat (next_property Hp k;
      [ simpl in Hd; try discriminate Hd; injection Hd as <-;
        rewrite ?Hget in *;
        destruct (strict_eq_str (get params "size") "custom");
        rewrite ?has_key_set_prop, ?prop_set_prop_ne in * by reflexivity;
        simpl in *; rewrite ?Hget; done | ]).
    discriminate Hp.
Qed.

End Listing.

(** * The further properties at concrete requests *)

Lemma log_levels_written_witness :
  let LOG_LEVEL := LOG_LEVEL_of (Some "error") in
  existsb (String.eqb LOG_LEVEL) OBJECT_PROTOTYPE_KEYS = false
  ∧ is_Some (log LOG_LEVEL "2026-11-03T03:09:00.000Z" "info"
                 "Replicate client initialized successfully" Undefined)
  ∧ ¬ is_Some (log LOG_LEVEL "2026-11-03T03:09:00.000Z" "debug"
                   "Server ready to accept requests" Undefined).
Proof.
  intros LOG_LEVEL. split; [reflexivity|].
  destruct (log_levels_written (Some "error") "2026-11-03T03:09:00.000Z"
              "Replicate client initialized successfully" Undefined eq_refl)
    as (_ & _ & [_ Hinfo] & _).
  destruct (log_levels_written (Some "error") "2026-11-03T03:09:00.000Z"
              "Server ready to accept requests" Undefined eq_refl)
    as (_ & _ & _ & [Hdebug _]).
  split.
  - apply Hinfo. discriminate.
  - intros Hw. specialize (Hdebug Hw). discriminate Hdebug.
Defined.

Lemma payload_enumerations_witness :
  let input := V4.build_input custom_request in
  normalize SeedDream4 custom_request = inr input
  ∧ includes (VALID_ASPECT_RATIOS SeedDream4) (prop "aspect_ratio" input)
    = true
  ∧ includes (VALID_SIZES SeedDream4) (prop "size" input) = true.
Proof.
  intros input.
  assert (Hn : normalize SeedDream4 custom_request = inr input).
  { vm_compute. reflexivity. }
  split; [exact Hn|].
  destruct (payload_enumerations SeedDream4 custom_request input Hn)
    as (_ & Har & Hsz & _).
  split; [exact Har|]. apply Hsz. reflexivity.
Defined.

Lemma V4_payload_bounds_witness :
  let input := V4.build_input custom_request in
  V4.normalize custom_request = inr input
  ∧ (∃ q, prop "max_images" input = Num (Finite q) ∧ (1 <= q <= 15)%Q)
  ∧ (∃ q, prop "height" input = Num (Finite q) ∧ (1024 <= q <= 4096)%Q).
Proof.
  intros input.
  assert (Hn : V4.normalize custom_request = inr input).
  { vm_compute. reflexivity. }
  split; [exact Hn|].
  destruct (V4_payload_bounds custom_request input Hn)
    as (Hmax & _ & _ & Hheight).
  split.
  - destruct (Hmax (Finite 15) eq_refl) as (q & Hq & Hb).
    injection Hq as <-. exists 15%Q. split; [reflexivity | exact Hb].
  - destruct (Hheight (Finite 2048) eq_refl) as (q & Hq & Hb).
    injection Hq as <-. exists 2048%Q. split; [reflexivity | exact Hb].
Defined.

Lemma normalize_idempotent_witness :
  let input := V3.build_input fox_request in
  normalize SeedDream3 fox_request = inr input
  ∧ normalize SeedDream3 (list_to_map input) = inr input.
Proof.
  intros input.
  assert (Hn : normalize SeedDream3 fox_request = inr input).
  { vm_compute. reflexivity. }
  split; [exact Hn|].
  exact (normalize_idempotent SeedDream3 fox_request input Hn).
Defined.

Lemma upstream_failure_surfaced_witness :
  let w := answering_world TimerFired (λ _, false) in
  let input := V4.build_input fox_request in
  let r := exec w (handler SeedDream4 (Some token_client) (Some fox_request))
                (0, 0) in
  returned r =
    Response (ErrorText (FailedToGenerate "Request timeout" (Some TipTimeout)))
             true
  ∧ calls r = [CallRun "bytedance/seedream-4" input TimerFired].
Proof.
  intros w input r.
  apply (upstream_failure_surfaced SeedDream4 fox_request input token_client
           _ w (0, 0) TimerFired "Request timeout").
  - vm_compute. reflexivity.
  - reflexivity.
  - reflexivity.
Defined.

Lemma V3_malformed_output_fails_witness :
  let w := example_world (Files []) (λ _, false) in
  let r := exec w (V3.handler (Some token_client) (Some fox_request)) (0, 0) in
  returned r =
    Response
      (ErrorText
         (FailedToGenerate "Invalid response format from Replicate: object"
                           None)) true
  ∧ download_urls (calls r) = [].
Proof.
  intros w r.
  destruct (V3_malformed_output_fails fox_request (V3.build_input fox_request)
              token_client (Files []) _ w (0, 0)) as [Hret Hcalls].
  - vm_compute. reflexivity.
  - reflexivity.
  - reflexivity.
  - split; [exact Hret|]. fold r in Hcalls. rewrite Hcalls. reflexivity.
Defined.


Lemma V4_broken_element_fails_witness :
  let url := "https://replicate.delivery/a.jpg" in
  let out := Files [UrlReturns (Str url); UrlThrows (JsError "stream closed")] in
  let w := example_world out (λ _, false) in
  let r := exec w (V4.handler (Some token_client) (Some fox_request)) (0, 0) in
  returned r =
    Response (ErrorText (FailedToGenerate "stream closed" None)) true
  ∧ download_urls (calls r) = [url].
Proof.
  intros url out w r.
  destruct (V4_broken_element_fails fox_request (V4.build_input fox_request)
              token_client out [url] (JsError "stream closed") [] _ w (0, 0))
    as (Hret & _ & Hurls).
  - vm_compute. reflexivity.
  - reflexivity.
  - reflexivity.
  - repeat constructor.
  - split; [exact Hret | exact Hurls].
Defined.

Lemma V4_plain_array_fails_witness :
  let out := Plain (Arr [Str "https://replicate.delivery/a.jpg"]) in
  let w := example_world out (λ _, false) in
  let r := exec w (V4.handler (Some token_client) (Some fox_request)) (0, 0) in
  isError (returned r) = true
  ∧ calls r =
      [CallRun "bytedance/seedream-4" (V4.build_input fox_request)
               (Settled (Fulfilled out))].
Proof.
  intros out w r.
  destruct (V4_plain_array_fails fox_request (V4.build_input fox_request)
              token_client (Str "https://replicate.delivery/a.jpg") []
              _ w (0, 0)) as (_ & Herr & Hcalls).
  - vm_compute. reflexivity.
  - reflexivity.
  - split; [exact Herr | exact Hcalls].
Defined.

Lemma V4_skips_malformed_urls_witness :
  let url := "https://replicate.delivery/a.jpg" in
  let vs := [Obj ∅; Str url; Str "ftp://replicate.delivery/b.jpg"] in
  let w := example_world (Files (List.map UrlReturns vs)) (λ _, false) in
  let r := exec w (V4.handler (Some token_client) (Some fox_request)) (0, 0) in
  isError (returned r) = false
  ∧ download_urls (calls r) = [url]
  ∧ ∃ rep,
      content (returned r) = SuccessText rep
      ∧ V4.r_total rep = 3
      ∧ length (V4.r_imageDetails rep) = 1.
Proof.
  intros url vs w r.
  destruct (V4_skips_malformed_urls fox_request (V4.build_input fox_request)
              token_client vs _ w (0, 0))
    as (Herr & Hurls & rep & Hrep & Htotal & Hlines & _).
  - vm_compute. reflexivity.
  - discriminate.
  - repeat (constructor; [vm_compute; eexists; reflexivity|]). constructor.
  - reflexivity.
  - split; [exact Herr|]. split; [exact Hurls|].
    exists rep. split; [exact Hrep|]. split; [exact Htotal | exact Hlines].
Defined.

Lemma custom_request_conforms t :
  In t (tools SeedDream4) → conforms t custom_request.
Proof.
  intros [<- | []]. split.
  - intros k [<- | []]. by eexists.
  - intros k p v Hp Hv. unfold V4_tools in Hp. cbn [t_properties] in Hp.
    repeat (next_property Hp k;
      [ vm_compute in Hv;
        first [discriminate Hv | injection Hv as <-; reflexivity] | ]).
    discriminate Hp.
Qed.

Lemma schema_conformant_accepted_witness :
  let t := hd (Tool "" "" [] []) (tools SeedDream4) in
  conforms t custom_request
  ∧ ∃ input, normalize SeedDream4 custom_request = inr input.
Proof.
  intros t.
  assert (Ht : In t (tools SeedDream4)) by (left; reflexivity).
  assert (Hc : conforms t custom_request) by by apply custom_request_conforms.
  split; [exact Hc|].
  apply (schema_conformant_accepted SeedDream4 t custom_request Ht Hc).
  discriminate.
Defined.

Lemma advertised_defaults_applied_witness :
  let input := V4.build_input custom_request in
  normalize SeedDream4 custom_request = inr input
  ∧ prop "height" input = int 2048.
Proof.
  intros input.
  assert (Hn : normalize SeedDream4 custom_request = inr input).
  { vm_compute. reflexivity. }
  split; [exact Hn|].
  apply (advertised_defaults_applied SeedDream4 custom_request input "height"
           (PropertySchema "integer"
              "Custom image height (only used when size='custom'). Range: 1024-4096 pixels."
              None None (Some 1024%Q) (Some 4096%Q) None (Some (int 2048)))
           (int 2048) Hn).
  - reflexivity.
  - reflexivity.
  - reflexivity.
  - reflexivity.
Defined.


Lemma V4_unprintable_url_fails_witness :
  let url := "https://replicate.delivery/a.jpg" in
  let broken := Obj {[ "toString" := Null ]} in
  let out := Files [UrlReturns (Str url); UrlReturns broken;
                    UrlReturns (Str url)] in
  let w := example_world out (λ _, false) in
  let r := exec w (V4.handler (Some token_client) (Some fox_request)) (0, 0) in
  returned r =
    Response
      (ErrorText
         (FailedToGenerate "Cannot convert object to primitive value" None))
      true
  ∧ download_urls (calls r) = [url].
Proof.
  intros url broken out w r.
  destruct (V4_unprintable_url_fails fox_request (V4.build_input fox_request)
              token_client [Str url] broken [UrlReturns (Str url)]
              _ w (0, 0)) as (Hret & _ & Hurls).
  - vm_compute. reflexivity.
  - repeat (constructor; [vm_compute; eexists; reflexivity|]). constructor.
  - intros [x Hx]. vm_compute in Hx. discriminate Hx.
  - reflexivity.
  - split; [exact Hret | exact Hurls].
Defined.

Lemma V4_unconvertible_operand_rejected_witness :
  let request : gmap string value :=
    {[ "prompt" := Str "x";
       "max_images" := Obj {[ "toString" := int 1 ]} ]} in
  normalize SeedDream4 request =
    inl (TypeError "Cannot convert object to primitive value")
  ∧ ∀ St (w : world St) s,
      calls (exec w (handler SeedDream4 (Some token_client) (Some request)) s)
        = [].
Proof.
  intros request.
  destruct (V4_unconvertible_operand_rejected request "max_images"
              InvalidMaxImages
              [MissingPrompt; InvalidSize; InvalidAspectRatio;
               InvalidSequentialMode]
              [TooManyInputImages; InvalidDimensions Width;
               InvalidDimensions Height]) as [Hn Hrun].
  - left. reflexivity.
  - reflexivity.
  - repeat (constructor; [vm_compute; reflexivity|]). constructor.
  - intros Hne. destruct Hne. reflexivity.
  - intros [x Hx]. vm_compute in Hx. discriminate Hx.
  - split; [exact Hn|]. intros St w s.
    destruct (Hrun token_client St w s) as [Hcalls _]. exact Hcalls.
Defined.
